(** * pip: option resolution, command execution and frozen requirements

    A shallow embedding of [pip/__init__.py] (the [FrozenRequirement]
    class), [pip/baseparser.py] ([ConfigOptionParser]) and
    [pip/basecommand.py] ([Command]), followed by the properties that the
    specification states about them.

    Python objects that are mutated in place and reachable from several
    owners ([optparse.Option] instances shared by the global parser and by
    every command parser) live in an explicit store.  Dictionaries whose
    iteration order the code depends on are association lists in insertion
    order; the other dictionaries are [gmap]s.  Exceptions and [sys.exit]
    are results of a small error monad. *)

From Stdlib Require Import ZArith QArith Ascii String.
From stdpp Require Import gmap strings list fin_maps.

Local Open Scope Z_scope.

(** * Python values and strings *)

Module Py.

(** The values that option destinations and command bodies carry. *)
#[warnings="-register-all"]
Inductive pyval :=
| VNone
| VBool (b : bool)
| VInt (z : Z)
| VFloat (q : Q)
| VStr (s : string)
| VList (l : list string)
| VTuple (l : list pyval).

(** Python truth value testing, as used by [or], [if] and [not]. *)
Definition truthy (v : pyval) : bool :=
  match v with
  | VNone => false
  | VBool b => b
  | VInt z => negb (z =? 0)
  | VFloat q => negb (Qnum q =? 0)
  | VStr s => negb (String.eqb s "")
  | VList l => match l with [] => false | _ => true end
  | VTuple l => match l with [] => false | _ => true end
  end.

(** [a or b] *)
Definition py_or (a b : pyval) : pyval := if truthy a then a else b.

(** [isinstance(v, int)]; [bool] is a subclass of [int]. *)
Definition isinstance_int (v : pyval) : bool :=
  match v with VInt _ | VBool _ => true | _ => false end.

(** [isinstance(v, string_types)] *)
Definition isinstance_str (v : pyval) : bool :=
  match v with VStr _ => true | _ => false end.

(** The integer an [int] instance denotes ([True == 1], [False == 0]). *)
Definition int_of (v : pyval) : option Z :=
  match v with
  | VInt z => Some z
  | VBool b => Some (if b then 1 else 0)
  | _ => None
  end.

(** Exceptions, one constructor per class that the code raises or catches.
    A constructor stands for the class and its subclasses. *)
Inductive exn :=
| InstallationError (msg : string)
| UninstallationError (msg : string)
| BadCommand (msg : string)
| CommandError (msg : string)
| KeyboardInterrupt
| SystemExit (code : Z)
| AssertionError
| UnboundLocalError (var : string)
| AttributeError (attr : string)
| ValueError (msg : string)
| TypeError (msg : string)
| OptionValueError (msg : string)
| OtherException (cls msg : string).

(** A computation either returns a value or raises. *)
Inductive result (A : Type) :=
| Ok (a : A)
| Raise (e : exn).
Arguments Ok {A} a.
Arguments Raise {A} e.

Definition bind {A B} (r : result A) (k : A -> result B) : result B :=
  match r with
  | Ok a => k a
  | Raise e => Raise e
  end.

Notation "x <- c1 ;; c2" := (bind c1 (fun x => c2))
  (at level 100, c1 at next level, right associativity).

(** Computations that read and write a state [S] and may raise; what was
    written before an exception stays written. *)
Definition ST (S A : Type) : Type := S -> S * result A.

Definition ret {S A} (a : A) : ST S A := fun st => (st, Ok a).
Definition raise {S A} (e : exn) : ST S A := fun st => (st, Raise e).
Definition lift {S A} (r : result A) : ST S A := fun st => (st, r).
Definition mbind {S A B} (m : ST S A) (k : A -> ST S B) : ST S B :=
  fun st =>
    match m st with
    | (st', Ok a) => k a st'
    | (st', Raise e) => (st', Raise e)
    end.

Notation "x <~ c1 ;; c2" := (mbind c1 (fun x => c2))
  (at level 100, c1 at next level, right associativity).

(** [for x in l: body], threading an accumulator. *)
Fixpoint for_each {S A B} (l : list A) (body : A -> B -> ST S B) (acc : B) : ST S B :=
  match l with
  | [] => ret acc
  | x :: rest => acc' <~ body x acc ;; for_each rest body acc'
  end.

(** ** Characters and strings *)

Definition LF : ascii := "010"%char.
Definition nl : string := String LF "".

Definition is_digit (c : ascii) : bool :=
  let n := nat_of_ascii c in (48 <=? n)%nat && (n <=? 57)%nat.

Definition is_upper (c : ascii) : bool :=
  let n := nat_of_ascii c in (65 <=? n)%nat && (n <=? 90)%nat.

(** [string.whitespace]: space, tab, newline, return, vertical tab, form feed. *)
Definition is_space (c : ascii) : bool :=
  let n := nat_of_ascii c in (n =? 32)%nat || ((9 <=? n)%nat && (n <=? 13)%nat).

Definition lower_char (c : ascii) : ascii :=
  if is_upper c then ascii_of_nat (nat_of_ascii c + 32) else c.

(** [s.lower()] on ASCII text. *)
Fixpoint lower (s : string) : string :=
  match s with
  | EmptyString => EmptyString
  | String c t => String (lower_char c) (lower t)
  end.

(** [s.startswith(p)] *)
Definition startswith (s p : string) : bool := String.prefix p s.

Fixpoint drop_str (n : nat) (s : string) : string :=
  match n, s with
  | O, _ => s
  | S k, String _ t => drop_str k t
  | S _, EmptyString => EmptyString
  end.

Fixpoint take_str (n : nat) (s : string) : string :=
  match n, s with
  | S k, String c t => String c (take_str k t)
  | _, _ => EmptyString
  end.

(** [s.replace(old, new)] for a non-empty [old]: every non-overlapping
    occurrence, scanning from the left.  [skip] counts the characters of
    an occurrence that remain to be dropped. *)
Fixpoint replace_go (old new : string) (skip : nat) (s : string) : string :=
  match s with
  | EmptyString => EmptyString
  | String c t =>
      match skip with
      | S k => replace_go old new k t
      | O =>
          if String.prefix old s
          then new +:+ replace_go old new (String.length old - 1) t
          else String c (replace_go old new O t)
      end
  end.

Definition replace (s old new : string) : string :=
  if String.eqb old "" then s else replace_go old new O s.

(** [s.split()]: the maximal runs of non-whitespace characters. *)
Fixpoint split_go (cur : string) (s : string) : list string :=
  match s with
  | EmptyString => if String.eqb cur "" then [] else [cur]
  | String c t =>
      if is_space c
      then (if String.eqb cur "" then split_go "" t else cur :: split_go "" t)
      else split_go (cur +:+ String c "") t
  end.

Definition split (s : string) : list string := split_go "" s.

(** [sep.join(l)] *)
Definition join (sep : string) (l : list string) : string := String.concat sep l.

(** ** The regular expressions of the code

    Each pattern of the source is a literal prefix, a run of digits and the
    anchor [$].  Without [re.MULTILINE], [$] matches at the end of the
    string and just before a newline that ends the string. *)

Definition at_dollar (rest : string) : bool :=
  String.eqb rest "" || String.eqb rest nl.

(** The longest run of digits at the head of [s], and what follows it. *)
Fixpoint span_digits (s : string) : string * string :=
  match s with
  | String c t =>
      if is_digit c
      then let '(ds, rest) := span_digits t in (String c ds, rest)
      else (EmptyString, s)
  | EmptyString => (EmptyString, EmptyString)
  end.

(** Exactly [n] digits at the head of [s]. *)
Fixpoint take_digits (n : nat) (s : string) : option (string * string) :=
  match n with
  | O => Some (EmptyString, s)
  | S k =>
      match s with
      | String c t =>
          if is_digit c
          then match take_digits k t with
               | Some (ds, rest) => Some (String c ds, rest)
               | None => None
               end
          else None
      | EmptyString => None
      end
  end.

(** [re.search]: the leftmost position at which the pattern matches,
    with the first group of that match. *)
Fixpoint re_search_from (here : string -> option string) (i : nat) (s : string)
  : option (nat * string) :=
  match here s with
  | Some g => Some (i, g)
  | None =>
      match s with
      | String _ t => re_search_from here (S i) t
      | EmptyString => None
      end
  end.

Definition re_search (here : string -> option string) (s : string) :=
  re_search_from here O s.

End Py.

(** * Frozen requirements ([pip/__init__.py]) *)

Module Freeze.
Import Py.

(** What [pkg_resources] gives for a distribution.  [as_requirement()]
    returns a requirement with the project name of the distribution and a
    list of [(operator, version)] specifiers; the list is kept general so
    that the assertion of [from_dist] can fail. *)
Record Requirement := {
  req_project_name : string;
  specs : list (string * string)
}.

(** [str(req)]: the project name followed by the comma-joined specifiers. *)
Definition Requirement_str (r : Requirement) : string :=
  req_project_name r +:+ join "," (map (fun s => fst s +:+ snd s) (specs r)).

Record Distribution := {
  project_name : string;
  location : string;
  dist_specs : list (string * string);
  dist_egg_name : string            (* the result of [dist.egg_name()] *)
}.

Definition as_requirement (dist : Distribution) : Requirement :=
  {| req_project_name := project_name dist; specs := dist_specs dist |}.

(** The [req] attribute holds a requirement object or a plain string. *)
Inductive req_value :=
| ReqObj (r : Requirement)
| ReqStr (s : string).

Definition req_str (r : req_value) : string :=
  match r with
  | ReqObj r => Requirement_str r
  | ReqStr s => s
  end.

(** The version control collaborators of [pip.vcs], which the source only
    calls: backend lookup by location and by name, and the locator of a
    checkout.  [None] stands for Python's [None]. *)
Record Backend := {
  get_location : Distribution -> list string -> option string
}.

Record VcsSupport := {
  get_backend_name : string -> option string;
  get_backend : string -> option Backend;
  get_src_requirement : Distribution -> string -> bool -> option string;
  (* os.path.normcase(os.path.abspath(_)) *)
  norm_location : string -> string
}.

(** Truth value of a string-or-[None]. *)
Definition opt_truthy (o : option string) : bool :=
  match o with
  | Some s => negb (String.eqb s "")
  | None => false
  end.

Record FrozenRequirement := {
  name : string;
  req : req_value;
  editable : bool;
  comments : list string
}.

(** [_rev_re = re.compile(r'-r(\d+)$')], matched at the head of [s]. *)
Definition rev_here (s : string) : option string :=
  match s with
  | String "-" (String "r" t) =>
      let '(ds, rest) := span_digits t in
      if negb (String.eqb ds "") && at_dollar rest then Some ds else None
  | _ => None
  end.

(** [_date_re = re.compile(r'-(20\d\d\d\d\d\d)$')], matched at the head of [s]. *)
Definition date_here (s : string) : option string :=
  match s with
  | String "-" (String "2" (String "0" t)) =>
      match take_digits 6 t with
      | Some (ds, rest) =>
          if at_dollar rest then Some ("20" +:+ ds) else None
      | None => None
      end
  | _ => None
  end.

Definition _rev_re_search (version : string) : option (nat * string) :=
  re_search rev_here version.

Definition _date_re_search (version : string) : option (nat * string) :=
  re_search date_here version.

(** [r'-py\d\.\d$'], matched at the head of [s]; it has no group. *)
Definition pytag_here (s : string) : option string :=
  match s with
  | String "-" (String "p" (String "y" (String d1 (String "." (String d2 rest))))) =>
      if is_digit d1 && is_digit d2 && at_dollar rest then Some "" else None
  | _ => None
  end.

(** [FrozenRequirement.egg_name] *)
Definition egg_name (dist : Distribution) : string :=
  let name := dist_egg_name dist in
  match re_search pytag_here name with
  | Some (start, _) => take_str start name
  | None => name
  end.

(** [FrozenRequirement.from_dist].  The first component lists the
    messages passed to [logger.warn]. *)
Definition from_dist (vcs : VcsSupport) (dist : Distribution)
    (dependency_links : list string) (find_tags : bool)
  : list string * result FrozenRequirement :=
  let location := norm_location vcs (location dist) in
  if opt_truthy (get_backend_name vcs location) then
    match get_src_requirement vcs dist location find_tags with
    | None =>
        (["Could not determine repository location of " +:+ location],
         Ok {| name := project_name dist;
               req := ReqObj (as_requirement dist);
               editable := false;
               comments := ["## !! Could not determine repository location"] |})
    | Some r =>
        ([], Ok {| name := project_name dist; req := ReqStr r;
                   editable := true; comments := [] |})
    end
  else
    let req := as_requirement dist in
    match specs req with
    | [(op, version)] =>
        if String.eqb op "==" then
          let ver_match := _rev_re_search version in
          let date_match := _date_re_search version in
          match ver_match, date_match with
          | None, None =>
              ([], Ok {| name := project_name dist; req := ReqObj req;
                         editable := false; comments := [] |})
          | _, _ =>
              match get_backend vcs "svn" with
              | None =>
                  (* [svn_location] is read without having been bound *)
                  ([], Raise (UnboundLocalError "svn_location"))
              | Some svn_backend =>
                  let svn_location := get_location svn_backend dist dependency_links in
                  if negb (opt_truthy svn_location) then
                    (["Warning: cannot find svn location for " +:+ Requirement_str req],
                     Ok {| name := project_name dist; req := ReqObj req;
                           editable := false;
                           comments := ["## FIXME: could not find svn URL in dependency_links for this package:"] |})
                  else
                    let rev :=
                      match ver_match with
                      | Some (_, g) => g
                      | None =>
                          match date_match with
                          | Some (_, g) => "{" +:+ g +:+ "}"
                          | None => ""
                          end
                      end in
                    ([], Ok {| name := project_name dist;
                               req := ReqStr (default "" svn_location +:+ "@" +:+ rev
                                              +:+ "#egg=" +:+ egg_name dist);
                               editable := true;
                               comments := ["# Installing as editable to satisfy requirement "
                                            +:+ Requirement_str req +:+ ":"] |})
              end
          end
        else ([], Raise AssertionError)
    | _ => ([], Raise AssertionError)
    end.

(** No version control backend claims the location of the distribution. *)
Definition not_owned (vcs : VcsSupport) (dist : Distribution) : Prop :=
  opt_truthy (get_backend_name vcs (norm_location vcs (location dist))) = false.

(** [FrozenRequirement.__str__] *)
Definition to_str (f : FrozenRequirement) : string :=
  let req := req_str (req f) in
  let req := if editable f then "-e " +:+ req else req in
  join nl (comments f ++ [req]) +:+ nl.

End Freeze.

(** * [optparse], as far as the code drives it

    [optparse] belongs to the Python standard library.  The classes that
    [ConfigOptionParser] and [Command] extend and call are modelled here:
    options, option containers, conversion of values and the actions taken
    for an option found on the command line.  Callback actions are left
    out. *)

Module Optparse.
Import Py.

Inductive Action :=
| ActStore | ActStoreConst | ActStoreTrue | ActStoreFalse
| ActAppend | ActAppendConst | ActCount | ActHelp | ActVersion.

Inductive OType := TString | TInt | TLong | TFloat | TComplex | TChoice.

Inductive HelpText := NoHelp | Help (s : string) | SUPPRESS_HELP.

#[global] Instance Action_eq_dec : EqDecision Action.
Proof. solve_decision. Defined.
#[global] Instance OType_eq_dec : EqDecision OType.
Proof. solve_decision. Defined.
#[global] Instance HelpText_eq_dec : EqDecision HelpText.
Proof. solve_decision. Defined.

(** An [optparse.Option] after its constructor has run.  [default = None]
    is [NO_DEFAULT]; [nargs = None] is Python's [None]. *)
Record Option := {
  _short_opts : list string;
  _long_opts : list string;
  action : Action;
  otype : option OType;
  dest : option string;
  default : option pyval;
  nargs : option nat;
  const : pyval;
  choices : list string;
  help : HelpText
}.

Definition with_nargs (o : Option) (n : option nat) : Option :=
  {| _short_opts := _short_opts o; _long_opts := _long_opts o;
     action := action o; otype := otype o; dest := dest o;
     default := default o; nargs := n; const := const o;
     choices := choices o; help := help o |}.

(** [STORE_ACTIONS], [TYPED_ACTIONS] and [ALWAYS_TYPED_ACTIONS] *)
Definition is_store_action (a : Action) : bool :=
  match a with
  | ActStore | ActStoreConst | ActStoreTrue | ActStoreFalse
  | ActAppend | ActAppendConst | ActCount => true
  | _ => false
  end.

Definition is_typed_action (a : Action) : bool :=
  match a with ActStore | ActAppend => true | _ => false end.

(** [Option.__init__] for the keyword arguments the code uses: the action
    defaults to [store], an always-typed action without a type gets
    [string] (or [choice] when choices are given), a missing destination
    is derived from the first long option string, and a typed action
    without [nargs] takes one argument. *)
Definition make_option (shorts longs : list string) (act : option Action)
    (ty : option OType) (dst : option string) (dflt : option pyval)
    (hlp : HelpText) : Option :=
  let a := match act with Some a => a | None => ActStore end in
  let ty' :=
    match ty with
    | Some t => Some t
    | None => if is_typed_action a then Some TString else None
    end in
  let dst' :=
    match dst with
    | Some d => Some d
    | None =>
        if is_store_action a || bool_decide (ty' <> None) then
          match longs, shorts with
          | l :: _, _ => Some (replace (drop_str 2 l) "-" "_")
          | [], s :: _ => Some (drop_str 1 s)
          | [], [] => None
          end
        else None
    end in
  {| _short_opts := shorts; _long_opts := longs; action := a; otype := ty';
     dest := dst'; default := dflt;
     nargs := if is_typed_action a then Some 1%nat else None;
     const := VNone; choices := []; help := hlp |}.

(** [Option.takes_value] *)
Definition takes_value (o : Option) : bool := bool_decide (otype o <> None).

(** [Option.get_opt_string] *)
Definition get_opt_string (o : Option) : string :=
  match _long_opts o with
  | l :: _ => l
  | [] => List.hd "" (_short_opts o)
  end.

(** The conversion functions behind [TYPE_CHECKER] for the numeric types
    ([int], [long], [float], [complex]) are taken as given: applied to a
    value they return the converted value or raise ([OptionValueError]
    for text that does not denote a number). *)
Class Conversions := {
  check_builtin : OType -> string -> pyval -> result pyval
}.

Section Conversion.
Context `{Conversions}.

(** [Option.check_value]: types without a checker return the value as it
    is. *)
Definition check_value (o : Option) (opt : string) (value : pyval) : result pyval :=
  match otype o with
  | None | Some TString => Ok value
  | Some TChoice =>
      match value with
      | VStr s =>
          if bool_decide (s ∈ choices o) then Ok value
          else Raise (OptionValueError ("option " +:+ opt +:+ ": invalid choice"))
      | _ => Raise (OptionValueError ("option " +:+ opt +:+ ": invalid choice"))
      end
  | Some ty => check_builtin ty opt value
  end.

Fixpoint check_each (o : Option) (opt : string) (vs : list pyval) : result (list pyval) :=
  match vs with
  | [] => Ok []
  | v :: rest =>
      v' <- check_value o opt v ;;
      rest' <- check_each o opt rest ;;
      Ok (v' :: rest')
  end.

(** The elements that [for v in value] visits. *)
Definition py_iter (value : pyval) : result (list pyval) :=
  match value with
  | VList l => Ok (map VStr l)
  | VTuple l => Ok l
  | VStr s => Ok (map (fun c => VStr (String c "")) (list_ascii_of_string s))
  | _ => Raise (TypeError "object is not iterable")
  end.

(** [Option.convert_value] *)
Definition convert_value (o : Option) (opt : string) (value : pyval) : result pyval :=
  match value with
  | VNone => Ok VNone
  | _ =>
      if bool_decide (nargs o = Some 1%nat) then check_value o opt value
      else
        vs <- py_iter value ;;
        vs' <- check_each o opt vs ;;
        Ok (VTuple vs')
  end.

End Conversion.

(** ** Option containers

    An [OptionGroup] shares the option-string maps and the defaults of its
    parser; it owns only its list of options.  A parser owns its maps, its
    defaults, its list of options and its list of groups.  All of them
    refer to options by their location in the store. *)

Record OptionGroup := {
  g_parser : nat;
  g_title : string;
  g_option_list : list nat
}.

Record OptionParser := {
  name : string;
  (* the sections read from the configuration files, in file order *)
  config : list (string * list (string * string));
  option_list : list nat;
  option_groups : list nat;
  _short_opt : gmap string nat;
  _long_opt : gmap string nat;
  (* keyed by [option.dest], which may be [None] *)
  defaults : gmap (option string) pyval;
  process_default_values : bool
}.

(** A container is a parser or a group of a parser. *)
Inductive container := InParser (p : nat) | InGroup (g : nat).

Record state := {
  options : list Option;
  (* the attribute [container] of the option at a location; an option
     has it once it has been added to a container *)
  containers : gmap nat container;
  groups : list OptionGroup;
  parsers : list OptionParser
}.

Definition with_options (st : state) (os : list Option) : state :=
  {| options := os; containers := containers st; groups := groups st;
     parsers := parsers st |}.
Definition with_containers (st : state) (cs : gmap nat container) : state :=
  {| options := options st; containers := cs; groups := groups st;
     parsers := parsers st |}.
Definition with_groups (st : state) (gs : list OptionGroup) : state :=
  {| options := options st; containers := containers st; groups := gs;
     parsers := parsers st |}.
Definition with_parsers (st : state) (ps : list OptionParser) : state :=
  {| options := options st; containers := containers st; groups := groups st;
     parsers := ps |}.

Abbreviation M := (ST state).

Definition get_parser (p : nat) : M OptionParser :=
  fun st =>
    match parsers st !! p with
    | Some pr => (st, Ok pr)
    | None => (st, Raise (OtherException "ReferenceError" "parser"))
    end.

Definition put_parser (p : nat) (pr : OptionParser) : M unit :=
  fun st => (with_parsers st (<[p := pr]> (parsers st)), Ok tt).

Definition get_group (g : nat) : M OptionGroup :=
  fun st =>
    match groups st !! g with
    | Some gr => (st, Ok gr)
    | None => (st, Raise (OtherException "ReferenceError" "group"))
    end.

Definition put_group (g : nat) (gr : OptionGroup) : M unit :=
  fun st => (with_groups st (<[g := gr]> (groups st)), Ok tt).

Definition get_opt (o : nat) : M Option :=
  fun st =>
    match options st !! o with
    | Some op => (st, Ok op)
    | None => (st, Raise (OtherException "ReferenceError" "option"))
    end.

Definition put_opt (o : nat) (op : Option) : M unit :=
  fun st => (with_options st (<[o := op]> (options st)), Ok tt).

(** Allocation of a new object: its location is the next free one. *)
Definition new_option (op : Option) : M nat :=
  fun st => (with_options st (options st ++ [op]), Ok (length (options st))).

Definition new_group (gr : OptionGroup) : M nat :=
  fun st => (with_groups st (groups st ++ [gr]), Ok (length (groups st))).

Definition new_parser (pr : OptionParser) : M nat :=
  fun st => (with_parsers st (parsers st ++ [pr]), Ok (length (parsers st))).


Definition set_container (o : nat) (c : container) : M unit :=
  fun st => (with_containers st (<[o := c]> (containers st)), Ok tt).

Definition parser_of (c : container) : M nat :=
  match c with
  | InParser p => ret p
  | InGroup g => gr <~ get_group g ;; ret (g_parser gr)
  end.

Definition with_maps (pr : OptionParser) (so lo : gmap string nat)
    (ds : gmap (option string) pyval) : OptionParser :=
  {| name := name pr; config := config pr; option_list := option_list pr;
     option_groups := option_groups pr; _short_opt := so; _long_opt := lo;
     defaults := ds; process_default_values := process_default_values pr |}.

Definition with_option_list (pr : OptionParser) (l : list nat) : OptionParser :=
  {| name := name pr; config := config pr; option_list := l;
     option_groups := option_groups pr; _short_opt := _short_opt pr;
     _long_opt := _long_opt pr; defaults := defaults pr;
     process_default_values := process_default_values pr |}.

Definition with_option_groups (pr : OptionParser) (l : list nat) : OptionParser :=
  {| name := name pr; config := config pr; option_list := option_list pr;
     option_groups := l; _short_opt := _short_opt pr;
     _long_opt := _long_opt pr; defaults := defaults pr;
     process_default_values := process_default_values pr |}.


(** [OptionContainer._check_conflict] with the conflict handler [error],
    which is the handler of every parser the code creates. *)
Definition _check_conflict (pr : OptionParser) (op : Option) : result unit :=
  if existsb (fun s => bool_decide (is_Some (_short_opt pr !! s))) (_short_opts op)
     || existsb (fun s => bool_decide (is_Some (_long_opt pr !! s))) (_long_opts op)
  then Raise (OtherException "OptionConflictError" "conflicting option string(s)")
  else Ok tt.

Definition bind_strings (m : gmap string nat) (strs : list string) (o : nat)
  : gmap string nat :=
  foldl (fun acc s => <[s := o]> acc) m strs.

(** The entry of [defaults] that adding an option writes. *)
Definition default_for (ds : gmap (option string) pyval) (op : Option)
  : gmap (option string) pyval :=
  match dest op with
  | Some d =>
      match default op with
      | Some v => <[Some d := v]> ds
      | None =>
          match ds !! Some d with
          | Some _ => ds
          | None => <[Some d := VNone]> ds
          end
      end
  | None => ds
  end.

Definition append_to (c : container) (o : nat) : M unit :=
  match c with
  | InParser p =>
      pr <~ get_parser p ;;
      put_parser p (with_option_list pr (option_list pr ++ [o]))
  | InGroup g =>
      gr <~ get_group g ;;
      put_group g {| g_parser := g_parser gr; g_title := g_title gr;
                     g_option_list := g_option_list gr ++ [o] |}
  end.

(** [OptionContainer.add_option(option)] for an existing [Option] object. *)
Definition add_option (c : container) (o : nat) : M nat :=
  op <~ get_opt o ;;
  p <~ parser_of c ;;
  pr <~ get_parser p ;;
  _ <~ lift (_check_conflict pr op) ;;
  _ <~ append_to c o ;;
  _ <~ set_container o c ;;
  pr <~ get_parser p ;;
  _ <~ put_parser p (with_maps pr
                       (bind_strings (_short_opt pr) (_short_opts op) o)
                       (bind_strings (_long_opt pr) (_long_opts op) o)
                       (default_for (defaults pr) op)) ;;
  ret o.

(** [OptionContainer.add_option] called with option strings and keywords:
    a new [Option] object is created and added. *)
Definition add_new_option (c : container) (op : Option) : M nat :=
  o <~ new_option op ;;
  add_option c o.

(** [OptionGroup(parser, title)] *)
Definition OptionGroup_init (p : nat) (title : string) : M nat :=
  new_group {| g_parser := p; g_title := title; g_option_list := [] |}.

(** [OptionParser.add_option_group(group)] *)
Definition add_option_group (p : nat) (g : nat) : M nat :=
  gr <~ get_group g ;;
  if bool_decide (g_parser gr = p) then
    pr <~ get_parser p ;;
    _ <~ put_parser p (with_option_groups pr (option_groups pr ++ [g])) ;;
    ret g
  else raise (ValueError "invalid OptionGroup (wrong parser)").

(** [OptionContainer.get_option]: the short map first, then the long one. *)
Definition get_option (pr : OptionParser) (opt_str : string) : option nat :=
  match _short_opt pr !! opt_str with
  | Some o => Some o
  | None => _long_opt pr !! opt_str
  end.






(** [OptionParser._get_all_options] *)
Definition _get_all_options (st : state) (pr : OptionParser) : list nat :=
  option_list pr ++
  concat (map (fun g => match groups st !! g with
                        | Some gr => g_option_list gr
                        | None => []
                        end) (option_groups pr)).

(** ** Values and actions *)

(** [optparse.Values(defaults)] sets one attribute per key; a key that is
    not a string ([None]) is refused by [setattr]. *)
Definition attrs_of (ds : gmap (option string) pyval) : gmap string pyval :=
  map_fold (fun k v acc => match k with Some s => <[s := v]> acc | None => acc end)
           ∅ ds.

Definition Values (ds : gmap (option string) pyval) : result (gmap string pyval) :=
  match ds !! None with
  | Some _ => Raise (TypeError "attribute name must be string")
  | None => Ok (attrs_of ds)
  end.

(** [values.ensure_value(attr, value)] *)
Definition ensure_value (values : gmap string pyval) (attr : string) (value : pyval)
  : gmap string pyval * pyval :=
  match values !! attr with
  | None | Some VNone => (<[attr := value]> values, value)
  | Some v => (values, v)
  end.

(** [Option.take_action].  A list that [append] extends is carried by
    value, which is what the code does for the list that [ensure_value]
    creates.  A list given as the default of an option is one object,
    held by the option and by the defaults of every parser with that
    option, and [append] extends it in place; this sharing is not
    represented, and no property below rests on appending to such a
    list. *)
Definition take_action (o : Option) (value : pyval) (values : gmap string pyval)
  : result (gmap string pyval) :=
  match action o with
  | ActHelp | ActVersion => Raise (SystemExit 0)
  | a =>
      match dest o with
      | None => Raise (TypeError "attribute name must be string")
      | Some d =>
          match a with
          | ActStore => Ok (<[d := value]> values)
          | ActStoreConst => Ok (<[d := const o]> values)
          | ActStoreTrue => Ok (<[d := VBool true]> values)
          | ActStoreFalse => Ok (<[d := VBool false]> values)
          | ActAppend =>
              let '(values', cur) := ensure_value values d (VList []) in
              match cur, value with
              | VList l, VStr s => Ok (<[d := VList (l ++ [s])]> values')
              | _, _ => Raise (TypeError "append")
              end
          | ActAppendConst =>
              let '(values', cur) := ensure_value values d (VList []) in
              match cur, const o with
              | VList l, VStr s => Ok (<[d := VList (l ++ [s])]> values')
              | _, _ => Raise (TypeError "append")
              end
          | ActCount =>
              let '(values', cur) := ensure_value values d (VInt 0) in
              match int_of cur with
              | Some n => Ok (<[d := VInt (n + 1)]> values')
              | None => Raise (TypeError "unsupported operand type(s) for +")
              end
          | _ => Ok values
          end
      end
  end.

End Optparse.

(** * [pip/baseparser.py] *)

Module Baseparser.
Import Py Optparse.

(** A Python [dict] with string keys whose iteration order matters:
    an association list in insertion order, as CPython keeps it.
    Assigning to a key that is present keeps its position. *)
Fixpoint dict_set (d : list (string * string)) (k v : string) : list (string * string) :=
  match d with
  | [] => [(k, v)]
  | (k', v') :: rest =>
      if String.eqb k k' then (k, v) :: rest else (k', v') :: dict_set rest k v
  end.

Fixpoint dict_get (d : list (string * string)) (k : string) : option string :=
  match d with
  | [] => None
  | (k', v') :: rest => if String.eqb k k' then Some v' else dict_get rest k
  end.

(** [d.update(other)] *)
Definition dict_update (d other : list (string * string)) : list (string * string) :=
  foldl (fun acc kv => dict_set acc (fst kv) (snd kv)) d other.

(** [distutils.util.strtobool] *)
Definition strtobool (val : string) : result pyval :=
  let val := lower val in
  if bool_decide (val ∈ ["y"; "yes"; "t"; "true"; "on"; "1"]) then Ok (VInt 1)
  else if bool_decide (val ∈ ["n"; "no"; "f"; "false"; "off"; "0"]) then Ok (VInt 0)
  else Raise (ValueError ("invalid truth value " +:+ val)).

(** [ConfigOptionParser.normalize_keys] *)
Definition normalize_key (key : string) : string :=
  let key := replace key "_" "-" in
  if startswith key "--" then key else "--" +:+ key.

Definition normalize_keys (items : list (string * string)) : list (string * string) :=
  foldl (fun normalized kv => dict_set normalized (normalize_key (fst kv)) (snd kv))
        [] items.

(** [ConfigOptionParser.get_config_section]; the parser's [config] holds
    what [RawConfigParser.items] returns for each section of the files. *)
Definition get_config_section (pr : OptionParser) (name : string)
  : list (string * string) :=
  match list_find (fun s => fst s = name) (config pr) with
  | Some (_, (_, items)) => items
  | None => []
  end.

(** [ConfigOptionParser.get_environ_vars], with [os.environ] as the list
    of its items. *)
Definition get_environ_vars (environ : list (string * string)) : list (string * string) :=
  map (fun kv => (lower (replace (fst kv) "PIP_" ""), snd kv))
      (filter (fun kv => startswith (fst kv) "PIP_" = true) environ).

(** [ConfigOptionParser.__init__] with [add_help_option=False], as both
    callers pass it.  [config] is the content of the configuration files
    that [get_config_files] selects. *)
Definition ConfigOptionParser_init (name : string)
    (config : list (string * list (string * string))) : M nat :=
  if String.eqb name "" then raise AssertionError
  else new_parser {| Optparse.name := name; Optparse.config := config;
                     option_list := []; option_groups := [];
                     _short_opt := ∅; _long_opt := ∅; defaults := ∅;
                     process_default_values := true |}.

Section WithConversions.
Context `{Conversions}.

(** The dictionary that [update_defaults] builds before it sets options:
    the [global] section, then the section of the parser, then the
    environment, each layer assigned over the previous ones. *)
Definition merged_config (pr : OptionParser) (environ : list (string * string))
  : list (string * string) :=
  let config := [] in
  let config :=
    foldl (fun config section =>
             dict_update config (normalize_keys (get_config_section pr section)))
          config ["global"; name pr] in
  dict_update config (normalize_keys (get_environ_vars environ)).

(** The body of the loop of [update_defaults] for one item. *)
Definition update_default (p : nat) (kv : string * string)
    (defaults : gmap (option string) pyval) : M (gmap (option string) pyval) :=
  let '(key, val) := kv in
  pr <~ get_parser p ;;
  match get_option pr key with
  | None => ret defaults
  | Some o =>
      (* ignore empty values *)
      if String.eqb val "" then ret defaults
      else
        op <~ get_opt o ;;
        (* handle multiline configs *)
        val1 <~ (if decide (action op = ActAppend) then ret (VList (split val))
                 else (_ <~ put_opt o (with_nargs op (Some 1%nat)) ;; ret (VStr val))) ;;
        val2 <~ (if bool_decide (action op ∈ [ActStoreTrue; ActStoreFalse; ActCount])
                 then lift (strtobool val) else ret val1) ;;
        op <~ get_opt o ;;
        val3 <~ lift (match convert_value op key val2 with
                      | Raise (OptionValueError _) => Raise (SystemExit 3)
                      | r => r
                      end) ;;
        ret (<[dest op := val3]> defaults)
  end.

(** [ConfigOptionParser.update_defaults] *)
Definition update_defaults (p : nat) (environ : list (string * string))
    (defaults : gmap (option string) pyval) : M (gmap (option string) pyval) :=
  pr <~ get_parser p ;;
  for_each (merged_config pr environ) (update_default p) defaults.

(** The second loop of [get_default_values] for one option: a default
    that is a string is checked as a command-line value would be. *)
Definition check_default (o : nat) (defaults : gmap (option string) pyval)
  : M (gmap (option string) pyval) :=
  op <~ get_opt o ;;
  match defaults !! dest op with
  | Some (VStr s) =>
      v <~ lift (check_value op (get_opt_string op) (VStr s)) ;;
      ret (<[dest op := v]> defaults)
  | _ => ret defaults
  end.

(** [ConfigOptionParser.get_default_values] *)
Definition get_default_values (p : nat) (environ : list (string * string))
  : M (gmap string pyval) :=
  pr <~ get_parser p ;;
  if negb (process_default_values pr) then lift (Values (defaults pr))
  else
    defaults <~ update_defaults p environ (defaults pr) ;;
    all <~ (fun st => (st, Ok (_get_all_options st pr))) ;;
    defaults <~ for_each all check_default defaults ;;
    lift (Values defaults).


(** ** The command line

    The scanner of [optparse] splits the arguments into the options it
    finds, each with the option string as matched and the argument taken
    for it ([None] when the option takes none), and the positional
    arguments.  [parse_args] starts from the default values and processes
    the occurrences from left to right; a bad option or a bad value is
    reported by [parser.error], which exits with status 2. *)
Record occurrence := {
  occ_opt : string;
  occ_value : pyval
}.

Definition process (p : nat) (occ : occurrence) (values : gmap string pyval)
  : M (gmap string pyval) :=
  pr <~ get_parser p ;;
  match get_option pr (occ_opt occ) with
  | None => raise (SystemExit 2)
  | Some o =>
      op <~ get_opt o ;;
      value <~ lift (match convert_value op (occ_opt occ) (occ_value occ) with
                     | Raise (OptionValueError _) => Raise (SystemExit 2)
                     | r => r
                     end) ;;
      lift (take_action op value values)
  end.

Definition parse_args (p : nat) (environ : list (string * string))
    (occs : list occurrence) : M (gmap string pyval) :=
  values <~ get_default_values p environ ;;
  for_each occs (process p) values.

End WithConversions.

(** [create_main_parser].  [default_log_file] comes from [pip.locations]. *)
Definition create_main_parser (config : list (string * list (string * string)))
    (default_log_file : string) : M nat :=
  parser <~ ConfigOptionParser_init "global" config ;;
  general_opts <~ OptionGroup_init parser "General options" ;;
  let padd := add_new_option (InParser parser) in
  let gadd := add_new_option (InGroup general_opts) in
  _ <~ gadd (make_option ["-h"] ["--help"] (Some ActStoreTrue) None (Some "help")
               None (Help "show this help message and exit")) ;;
  _ <~ gadd (make_option ["-V"] ["--version"] (Some ActStoreTrue) None (Some "version")
               None (Help "show version and exit")) ;;
  _ <~ gadd (make_option ["-v"] ["--verbose"] (Some ActCount) None (Some "verbose")
               (Some (VInt 0)) (Help "increase verbosity")) ;;
  _ <~ gadd (make_option ["-q"] ["--quiet"] (Some ActCount) None (Some "quiet")
               (Some (VInt 0)) (Help "decrease verbosity")) ;;
  _ <~ gadd (make_option [] ["--log"] None None (Some "log")
               None (Help "log file (maximum verbosity)")) ;;
  _ <~ gadd (make_option [] ["--proxy"] None (Some TString) (Some "proxy")
               (Some (VStr "")) (Help "specify proxy as user:pswd@server:port")) ;;
  _ <~ gadd (make_option [] ["--timeout"; "--default-timeout"] None (Some TFloat)
               (Some "timeout") (Some (VInt 15))
               (Help "set socket timeout (default %default seconds)")) ;;
  _ <~ add_option_group parser general_opts ;;
  _ <~ padd (make_option [] ["--log-explicit-levels"] (Some ActStoreTrue) None
               (Some "log_explicit_levels") (Some (VBool false)) SUPPRESS_HELP) ;;
  _ <~ padd (make_option [] ["--require-virtualenv"; "--require-venv"]
               (Some ActStoreTrue) None (Some "require_venv") (Some (VBool false))
               SUPPRESS_HELP) ;;
  _ <~ padd (make_option [] ["--local-log"; "--log-file"] None None (Some "log_file")
               (Some (VStr default_log_file)) SUPPRESS_HELP) ;;
  _ <~ padd (make_option [] ["--no-input"] (Some ActStoreTrue) None (Some "no_input")
               (Some (VBool false)) SUPPRESS_HELP) ;;
  _ <~ padd (make_option [] ["--default-vcs"] None (Some TString) (Some "default_vcs")
               (Some (VStr "")) SUPPRESS_HELP) ;;
  _ <~ padd (make_option [] ["--skip-requirements-regex"] None (Some TString)
               (Some "skip_requirements_regex") (Some (VStr "")) SUPPRESS_HELP) ;;
  ret parser.

End Baseparser.

(** * [pip/basecommand.py] *)

Module Basecommand.
Import Py Optparse Baseparser.

(** The exit statuses of [pip.status_codes], taken as given. *)
Class StatusCodes := {
  SUCCESS : Z;
  ERROR : Z;
  UNKNOWN_ERROR : Z;
  VIRTUALENV_NOT_FOUND : Z
}.

(** Modelled from the spec: [pip/status_codes.py] is not among the
    sources; the specification fixes [SUCCESS] at 0 and requires the other
    three statuses to be distinct and nonzero. *)
Definition pip_status_codes : StatusCodes :=
  {| SUCCESS := 0; ERROR := 1; UNKNOWN_ERROR := 2; VIRTUALENV_NOT_FOUND := 3 |}.

(** ** Building the parser of a command *)

Record Command := {
  cmd_name : string;
  main_parser : nat;
  parser : nat;
  command_group : nat
}.

(** [Command._copy_options] *)
Definition _copy_options (c : container) (opts : list nat) : M unit :=
  for_each opts
    (fun o _ =>
       op <~ get_opt o ;;
       match dest op with
       | None => ret tt
       | Some d =>
           if String.eqb d "" || String.eqb d "help" then ret tt
           else (_ <~ add_option c o ;; ret tt)
       end) tt.

(** [Command._copy_option_group] *)
Definition _copy_option_group (p : nat) (g : nat) : M unit :=
  gr <~ get_group g ;;
  new_group <~ OptionGroup_init p (g_title gr) ;;
  _ <~ _copy_options (InGroup new_group) (g_option_list gr) ;;
  _ <~ add_option_group p new_group ;;
  ret tt.

(** [Command.__init__]; [config] is what the configuration files hold
    when the parser of the command reads them. *)
Definition Command_init (name : string)
    (config : list (string * list (string * string))) (main_parser : nat)
  : M Command :=
  if String.eqb name "" then raise AssertionError
  else
    parser <~ ConfigOptionParser_init name config ;;
    command_group <~ OptionGroup_init parser "Command options" ;;
    (* Re-add all options and option groups *)
    mp <~ get_parser main_parser ;;
    _ <~ for_each (option_groups mp) (fun group _ => _copy_option_group parser group) tt ;;
    mp <~ get_parser main_parser ;;
    _ <~ _copy_options (InParser parser) (option_list mp) ;;
    ret {| cmd_name := name; main_parser := main_parser; parser := parser;
           command_group := command_group |}.

(** ** Merging the global options into those of the command *)

Definition getattr (values : gmap string pyval) (attr : string) : result pyval :=
  match values !! attr with
  | Some v => Ok v
  | None => Raise (AttributeError attr)
  end.

(** [a + b] on numbers, strings and lists. *)
Definition py_add (a b : pyval) : result pyval :=
  match a, b with
  | VStr x, VStr y => Ok (VStr (x +:+ y))
  | VList x, VList y => Ok (VList (x ++ y))
  | VTuple x, VTuple y => Ok (VTuple (x ++ y))
  | VFloat x, VFloat y => Ok (VFloat (x + y)%Q)
  | VFloat x, _ =>
      match int_of b with
      | Some y => Ok (VFloat (x + inject_Z y)%Q)
      | None => Raise (TypeError "unsupported operand type(s) for +")
      end
  | _, VFloat y =>
      match int_of a with
      | Some x => Ok (VFloat (inject_Z x + y)%Q)
      | None => Raise (TypeError "unsupported operand type(s) for +")
      end
  | _, _ =>
      match int_of a, int_of b with
      | Some x, Some y => Ok (VInt (x + y))
      | _, _ => Raise (TypeError "unsupported operand type(s) for +")
      end
  end.

Definition carried_over : list string :=
  ["log"; "proxy"; "require_venv";
   "log_explicit_levels"; "log_file";
   "timeout"; "default_vcs"; "skip_requirements_regex";
   "no_input"].

(** The body of the loop of [merge_options]: the right operand of [or] is
    evaluated only when the left one is false. *)
Definition merge_attr (initial_options : gmap string pyval) (attr : string)
    (options : gmap string pyval) : result (gmap string pyval) :=
  a <- getattr initial_options attr ;;
  val <- (if truthy a then Ok a else getattr options attr) ;;
  Ok (<[attr := val]> options).

Fixpoint merge_attrs (initial_options : gmap string pyval) (attrs : list string)
    (options : gmap string pyval) : result (gmap string pyval) :=
  match attrs with
  | [] => Ok options
  | attr :: rest =>
      options <- merge_attr initial_options attr options ;;
      merge_attrs initial_options rest options
  end.

(** [options.attr += initial_options.attr] *)
Definition add_attr (initial_options : gmap string pyval) (attr : string)
    (options : gmap string pyval) : result (gmap string pyval) :=
  a <- getattr options attr ;;
  b <- getattr initial_options attr ;;
  val <- py_add a b ;;
  Ok (<[attr := val]> options).

(** [Command.merge_options] *)
Definition merge_options (initial_options options : gmap string pyval)
  : result (gmap string pyval) :=
  (* Make sure we have all global options carried over *)
  options <- merge_attrs initial_options carried_over options ;;
  options <- add_attr initial_options "quiet" options ;;
  add_attr initial_options "verbose" options.

(** ** The process around a command

    What [main] does outside the parsers: calls of the logger, files,
    process-wide settings and the run of the command body.  The trace
    lists these actions in the order in which they happen; the run of the
    body is one event of it, which carries how the body ended. *)

Inductive level := DEBUG | INFO | NOTIFY | WARN | FATAL.

Inductive mode := ModeA | ModeW.

Inductive event :=
| LogConsumers (stdout_level : Z)
| ExplicitLevels
| Log (lvl : level) (msg : string)
| Makedirs (path : string)
| Open (path : string) (m : mode)
| Close (path : string)
| SetDefaultTimeout (timeout : pyval)
| UrlopenSetup (proxystr : pyval) (prompting : bool)
| RunBody (outcome : result pyval).

Record world := {
  files : gmap string string;      (* content of each file, by absolute path *)
  dirs : gset string;              (* the directories that exist *)
  complete_log : list string;      (* what the DEBUG consumer has collected *)
  trace : list event
}.

Abbreviation W := (ST world).

(** What the operating system, the clock, [traceback], [str] and the
    logger of [pip.log] contribute; none of it is in the sources. *)
Class Host := {
  expanduser : string -> string;
  abspath : string -> string;
  dirname : string -> string;
  (* the directories above a path that [os.makedirs] creates with it *)
  ancestors : string -> list string;
  argv0 : string;
  strftime_c : string;
  format_exc : exn -> string;
  str_of : pyval -> string;
  (* the line that the logger hands to a consumer *)
  render : level -> string -> string
}.

(** The content of a file; a file that does not exist has none. *)
Definition content (fs : gmap string string) (path : string) : string :=
  match fs !! path with
  | Some text => text
  | None => ""
  end.

Definition emit (e : event) : W unit :=
  fun w => ({| files := files w; dirs := dirs w; complete_log := complete_log w;
               trace := trace w ++ [e] |}, Ok tt).

Definition exists_path (path : string) : W bool :=
  fun w => (w, Ok (bool_decide (is_Some (files w !! path)) || bool_decide (path ∈ dirs w))).

Definition write (path : string) (text : string) : W unit :=
  fun w => ({| files := <[path := content (files w) path +:+ text]> (files w);
               dirs := dirs w; complete_log := complete_log w; trace := trace w |},
            Ok tt).

Section WithHost.
Context `{Host} `{StatusCodes}.


(** A call of the logger at [lvl]: the consumer registered at DEBUG gets
    every message.  What the other consumers (standard output, the file of
    [--log]) receive is not modelled. *)
Definition logger_log (lvl : level) (msg : string) : W unit :=
  fun w => ({| files := files w; dirs := dirs w;
               complete_log := complete_log w ++ [render lvl msg];
               trace := trace w ++ [Log lvl msg] |}, Ok tt).

(** [os.makedirs] *)
Definition makedirs (path : string) : W unit :=
  fun w => ({| files := files w;
               dirs := {[path]} ∪ list_to_set (ancestors path) ∪ dirs w;
               complete_log := complete_log w;
               trace := trace w ++ [Makedirs path] |}, Ok tt).

(** [open(filename, mode)] for the modes [a] and [w]: a directory cannot
    be opened, [w] empties the file, and both create a missing file. *)
Definition py_open (path : string) (m : mode) : W string :=
  fun w =>
    if bool_decide (path ∈ dirs w) then (w, Raise (OtherException "IOError" path))
    else
      let content :=
        match m with
        | ModeA => content (files w) path
        | ModeW => ""
        end in
      ({| files := <[path := content]> (files w); dirs := dirs w;
          complete_log := complete_log w; trace := trace w ++ [Open path m] |},
       Ok path).

(** [open_logfile] *)
Definition open_logfile (filename : string) (m : mode) : W string :=
  let filename := expanduser filename in
  let filename := abspath filename in
  let dirname := dirname filename in
  dir_exists <~ exists_path dirname ;;
  _ <~ (if negb dir_exists then makedirs dirname else ret tt) ;;
  exists_ <~ exists_path filename ;;
  log_fp <~ py_open filename m ;;
  _ <~ (if exists_ : bool then
          _ <~ write log_fp (String.concat "" (replicate 60 "-") +:+ nl) ;;
          write log_fp (argv0 +:+ " run on " +:+ strftime_c +:+ nl)
        else ret tt) ;;
  ret log_fp.

(** [open_logfile] applied to the value of an option. *)
Definition open_logfile_of (filename : pyval) (m : mode) : W string :=
  match filename with
  | VStr s => open_logfile s m
  | _ => raise (AttributeError "startswith")
  end.


(** The body of a command: it gets the options and the arguments, may
    change the world, and returns a status or raises. *)
Definition body := gmap string pyval -> list string -> W pyval.




(** The end of [Command.main]: when [store_log] is set, the collected log
    is written to the file that [options.log_file] names. *)
Definition store_complete_log (options : gmap string pyval) : W unit :=
  log_fn <~ lift (getattr options "log_file") ;;
  text <~ (fun w => (w, Ok (join nl (complete_log w)))) ;;
  _ <~ logger_log FATAL ("Storing complete log in " +:+ str_of log_fn) ;;
  log_fp <~ open_logfile_of log_fn ModeW ;;
  _ <~ write log_fp text ;;
  emit (Close log_fp).



End WithHost.

End Basecommand.

(** * What the properties speak about *)

Module Resolution.
Import Py Optparse Baseparser.
Section WithConversions.
Context `{Conversions}.

(** The value that [update_defaults] computes for an option from one
    non-empty text of the configuration or the environment. *)
Definition config_value (op : Option) (key val : string) : result pyval :=
  let val1 := if decide (action op = ActAppend) then VList (split val) else VStr val in
  val2 <- (if bool_decide (action op ∈ [ActStoreTrue; ActStoreFalse; ActCount])
           then strtobool val else Ok val1) ;;
  match convert_value (if decide (action op = ActAppend) then op
                       else with_nargs op (Some 1%nat)) key val2 with
  | Raise (OptionValueError _) => Raise (SystemExit 3)
  | r => r
  end.

(** The default that [get_default_values] resolves for the destination
    of [op], when [key] is the only key of the merged dictionary that
    writes it: the text of the dictionary decides unless it is empty or
    missing, and a string is checked once more. *)
Definition resolved_default (pr : OptionParser) (environ : list (string * string))
    (op : Option) (key : string) : result (option pyval) :=
  base <- match dict_get (merged_config pr environ) key with
          | Some v =>
              if String.eqb v "" then Ok (defaults pr !! dest op)
              else (y <- config_value op key v ;; Ok (Some y))
          | None => Ok (defaults pr !! dest op)
          end ;;
  match base with
  | Some (VStr s) => y <- check_value op (get_opt_string op) (VStr s) ;; Ok (Some y)
  | other => Ok other
  end.

(** [key] is the only key of the merged dictionary whose option writes
    the destination [d]. *)
Definition only_key (st : state) (pr : OptionParser) (environ : list (string * string))
    (key : string) (d : option string) : bool :=
  forallb (fun kv =>
             match get_option pr (fst kv) with
             | Some o' =>
                 match options st !! o' with
                 | Some op' => negb (bool_decide (dest op' = d)) || String.eqb (fst kv) key
                 | None => true
                 end
             | None => true
             end) (merged_config pr environ).

(** The options in [l] that write the destination [d]. *)
Definition option_writes (st : state) (d : option string) (o' : nat) : bool :=
  match options st !! o' with
  | Some op' => bool_decide (dest op' = d)
  | None => false
  end.

Definition writers (st : state) (d : option string) (l : list nat) : list nat :=
  filter (fun o' => option_writes st d o' = true) l.

(** The occurrences on the command line that write the destination [d]. *)
Definition writes (st : state) (pr : OptionParser) (d : option string)
    (occ : occurrence) : bool :=
  match get_option pr (occ_opt occ) with
  | Some o' =>
      match options st !! o' with
      | Some op' => bool_decide (dest op' = d)
      | None => false
      end
  | None => false
  end.

(** On the command line, only counting options write the destination
    [d]. *)
Definition counted (st : state) (pr : OptionParser) (d : option string)
    (occs : list occurrence) : bool :=
  forallb (fun occ =>
             match get_option pr (occ_opt occ) with
             | Some o' =>
                 match options st !! o' with
                 | Some op' =>
                     negb (bool_decide (dest op' = d))
                     || bool_decide (action op' = ActCount)
                 | None => true
                 end
             | None => true
             end) occs.

(** How often the destination [d] is written on the command line. *)
Definition occurrences (st : state) (pr : OptionParser) (d : option string)
    (occs : list occurrence) : Z :=
  Z.of_nat (length (filter (fun occ => writes st pr d occ = true) occs)).

(** What a storing action leaves in its destination. *)
Definition stored (op : Option) (value : pyval) : pyval :=
  match action op with
  | ActStore => value
  | ActStoreConst => const op
  | ActStoreTrue => VBool true
  | _ => VBool false
  end.

End WithConversions.
End Resolution.

(** The ways in which the code and its callers change the parser of a
    command once it is built: new options for the parser or for one of
    its groups, the removal of an option, new groups, assignments to its
    defaults, and the resolution of its defaults, which formatting help
    and parsing arguments start with. *)
Module Mutation.
Import Py Optparse Baseparser.







End Mutation.

(** * The claims in the words of the specification

    Where the specification words a rule differently from the code, the
    rule is written down here as the specification has it, to be compared
    with what the code computes. *)

Module Claimed.
Import Py Optparse Basecommand.

(** The command line overrides the environment, which overrides the
    section of the command, which overrides the global section, which
    overrides the built-in default. *)
Definition resolve (cli env command global : option pyval) (default : pyval) : pyval :=
  match cli, env, command, global with
  | Some v, _, _, _ => v
  | None, Some v, _, _ => v
  | None, None, Some v, _ => v
  | None, None, None, Some v => v
  | None, None, None, None => default
  end.

(** The value of the command, falling back to the global value when it
    is false. *)
Definition merged_value (command global : pyval) : pyval :=
  if truthy command then command else global.



End Claimed.

(** * Vocabulary of the proofs *)

Module Traces.
Import Py Optparse Baseparser Basecommand.
Section WithHost.
Context `{Host} `{StatusCodes}.

(** The events that a computation adds to the trace. *)
Definition new_events (w w' : world) : list event :=
  drop (length (trace w)) (trace w').







Definition separator : string := String.concat "" (replicate 60 "-") +:+ nl.
Definition banner : string := argv0 +:+ " run on " +:+ strftime_c +:+ nl.

End WithHost.
End Traces.

Module Stores.
Import Py Optparse Baseparser Mutation.

(** What resolving defaults may do to an option: nothing, or set [nargs]
    to 1 when its action is not [append]. *)
Definition nargs_set (op op' : Option) : Prop :=
  op' = op \/ (action op <> ActAppend /\ op' = with_nargs op (Some 1%nat)).

Definition evolves (st st' : state) : Prop :=
  parsers st' = parsers st /\ groups st' = groups st
  /\ length (options st') = length (options st)
  /\ forall o op, options st !! o = Some op ->
       exists op', options st' !! o = Some op' /\ nargs_set op op'.

(** The store after [update_defaults] has met the option at [o]. *)
Definition set_nargs (st : state) (o : nat) : state :=
  match options st !! o with
  | Some op =>
      if decide (action op = ActAppend) then st
      else with_options st (<[o := with_nargs op (Some 1%nat)]> (options st))
  | None => st
  end.

(** What a change of the parser at [c] leaves as it was. *)
Definition frame (c : nat) (st st' : state) : Prop :=
  (forall q, q <> c -> parsers st' !! q = parsers st !! q)
  /\ (forall g gr, groups st !! g = Some gr -> g_parser gr <> c -> groups st' !! g = Some gr)
  /\ (forall o op, options st !! o = Some op ->
        exists op', options st' !! o = Some op' /\ nargs_set op op').






End Stores.

(** * Sample inputs *)

Module Examples.
Import Py Optparse Baseparser Basecommand Freeze Mutation.

(** A conversion of decimal numerals, for the numeric option types. *)
Fixpoint decimal_go (acc : Z) (s : string) : option Z :=
  match s with
  | EmptyString => Some acc
  | String c t =>
      if is_digit c
      then decimal_go (10 * acc + Z.of_nat (nat_of_ascii c - 48)) t
      else None
  end.

Definition decimal (s : string) : option Z :=
  match s with
  | EmptyString => None
  | _ => decimal_go 0 s
  end.

Definition sample_conversions : Conversions :=
  {| check_builtin := fun ty opt value =>
       match value with
       | VStr s =>
           match decimal s with
           | Some n =>
               Ok (match ty with
                   | TFloat | TComplex => VFloat (inject_Z n)
                   | _ => VInt n
                   end)
           | None => Raise (OptionValueError ("option " +:+ opt +:+ ": invalid value"))
           end
       | _ => Raise (TypeError "argument must be a string or a number")
       end |}.

(** A host with POSIX paths. *)
Fixpoint dirname_go (s : string) : option string :=
  match s with
  | EmptyString => None
  | String c t =>
      match dirname_go t with
      | Some d => Some (String c d)
      | None => if Ascii.eqb c "/" then Some EmptyString else None
      end
  end.

Definition posix_dirname (path : string) : string :=
  match dirname_go path with
  | Some EmptyString => "/"
  | Some d => d
  | None => ""
  end.

Fixpoint posix_ancestors (fuel : nat) (path : string) : list string :=
  match fuel with
  | O => []
  | S k =>
      let d := posix_dirname path in
      if String.eqb d path || String.eqb d "" then []
      else d :: posix_ancestors k d
  end.

Definition sample_host : Host :=
  {| expanduser := fun path => path;
     abspath := fun path => path;
     dirname := posix_dirname;
     ancestors := fun path => posix_ancestors (String.length path) path;
     argv0 := "/usr/bin/pip";
     strftime_c := "Sat Nov  3 12:00:00 2012";
     format_exc := fun e => "Traceback (most recent call last):";
     str_of := fun v => match v with VStr s => s | VNone => "None" | _ => "" end;
     render := fun lvl msg => msg |}.

Definition default_log_file : string := "/home/user/.pip/pip.log".

Definition empty_state : state :=
  {| options := []; containers := ∅; groups := []; parsers := [] |}.

(** The store after [create_main_parser]; the global parser is at 0. *)
Definition main_state (config : list (string * list (string * string))) : state :=
  fst (create_main_parser config default_log_file empty_state).

Definition flag (opt : string) : occurrence := {| occ_opt := opt; occ_value := VNone |}.
Definition arg (opt value : string) : occurrence :=
  {| occ_opt := opt; occ_value := VStr value |}.

(** [pip <global options> install <command options>]: the global parser
    parses its options, the command is built from it, and the command
    parses its own options and merges the global ones into them. *)
Definition install_options `{Conversions} (config : list (string * list (string * string)))
    (environ : list (string * string)) (global command : list occurrence)
  : result (gmap string pyval) :=
  match parse_args 0 environ global (main_state config) with
  | (st1, Ok initial_options) =>
      match Command_init "install" config 0 st1 with
      | (st2, Ok cmd) =>
          match parse_args (parser cmd) environ command st2 with
          | (_, Ok options) => merge_options initial_options options
          | (_, Raise e) => Raise e
          end
      | (_, Raise e) => Raise e
      end
  | (_, Raise e) => Raise e
  end.

Definition attr_of (r : result (gmap string pyval)) (attr : string) : option pyval :=
  match r with
  | Ok values => values !! attr
  | Raise _ => None
  end.

(** The store with the global parser and the parser of [install]. *)
Definition install_state (config : list (string * list (string * string))) : state :=
  fst (Command_init "install" config 0 (main_state config)).


(** A world with an earlier log of a failure. *)
Definition old_world : world :=
  {| files := {[ default_log_file := "earlier failure" +:+ nl ]};
     dirs := {[ "/home/user/.pip"; "/home/user"; "/home"; "/" ]};
     complete_log := [];
     trace := [] |}.




(** Distributions and version control. *)
Definition dist_of (name version : string) : Distribution :=
  {| project_name := name; location := "/site-packages/" +:+ name;
     dist_specs := [("==", version)];
     dist_egg_name := name +:+ "-" +:+ version +:+ "-py2.7" |}.

Definition vcs_with (svn : option Backend) : VcsSupport :=
  {| get_backend_name := fun _ => None;
     get_backend := fun name => if String.eqb name "svn" then svn else None;
     get_src_requirement := fun _ _ _ => None;
     norm_location := fun path => path |}.


(** The options of the two scopes of [pip <global options> install
    <command options>] before they are merged. *)
Definition install_scopes `{Conversions} (config : list (string * list (string * string)))
    (environ : list (string * string)) (global command : list occurrence)
  : result (gmap string pyval * gmap string pyval) :=
  match parse_args 0 environ global (main_state config) with
  | (st1, Ok initial_options) =>
      match Command_init "install" config 0 st1 with
      | (st2, Ok cmd) =>
          match parse_args (parser cmd) environ command st2 with
          | (_, Ok options) => Ok (initial_options, options)
          | (_, Raise e) => Raise e
          end
      | (_, Raise e) => Raise e
      end
  | (_, Raise e) => Raise e
  end.

Definition values_of (r : result (gmap string pyval)) : gmap string pyval :=
  match r with
  | Ok values => values
  | Raise _ => ∅
  end.

Definition global_scope `{Conversions} config environ global command : gmap string pyval :=
  match install_scopes config environ global command with
  | Ok scopes => fst scopes
  | Raise _ => ∅
  end.

Definition command_scope `{Conversions} config environ global command : gmap string pyval :=
  match install_scopes config environ global command with
  | Ok scopes => snd scopes
  | Raise _ => ∅
  end.
Definition succeeds {A} (r : result A) : bool :=
  match r with
  | Ok _ => true
  | Raise _ => false
  end.

(** Accessors of the store for objects that are known to be there. *)
Definition empty_parser : OptionParser :=
  {| Optparse.name := ""; config := []; option_list := []; option_groups := [];
     _short_opt := ∅; _long_opt := ∅; defaults := ∅; process_default_values := true |}.

Definition parser_at (st : state) (p : nat) : OptionParser :=
  match parsers st !! p with
  | Some pr => pr
  | None => empty_parser
  end.

Definition option_at (st : state) (o : nat) : Option :=
  match options st !! o with
  | Some op => op
  | None => make_option [] [] None None None None NoHelp
  end.

Definition option_index (pr : OptionParser) (opt : string) : nat :=
  match get_option pr opt with
  | Some o => o
  | None => 0
  end.

(** A world in which an earlier run left a log and this run has logged
    two lines. *)
Definition failed_world : world :=
  {| files := files old_world; dirs := dirs old_world;
     complete_log := ["Downloading/unpacking pkg"; "boom"]; trace := [] |}.

(** The options of [pip install] without arguments, configuration or
    environment. *)
Definition default_options `{Conversions} : gmap string pyval :=
  values_of (install_options [] [] [] []).

End Examples.

(** * Properties *)

#[local] Set Warnings "-clear-no-such-hyp".

Section DictProps.
Import Py Optparse Baseparser.


Lemma dict_get_set_eq d k v : dict_get (dict_set d k v) k = Some v.
Proof.
  induction d as [|[k' v'] d IH]; cbn.
  - by rewrite String.eqb_refl.
  - destruct (String.eqb k k') eqn:E; cbn; rewrite ?String.eqb_refl, ?E; done.
Qed.

Lemma dict_get_set_ne d k k' v : k <> k' -> dict_get (dict_set d k v) k' = dict_get d k'.
Proof.
  intros Hne. induction d as [|[k0 v0] d IH]; cbn.
  - destruct (String.eqb k' k) eqn:E; [|done]. apply String.eqb_eq in E. congruence.
  - destruct (String.eqb k k0) eqn:E; cbn.
    + apply String.eqb_eq in E. subst k0.
      destruct (String.eqb k' k) eqn:E'; [|done]. apply String.eqb_eq in E'. congruence.
    + by rewrite IH.
Qed.

Lemma dict_get_Some_In d k v : dict_get d k = Some v -> (k, v) ∈ d.
Proof.
  induction d as [|[k0 v0] d IH]; cbn; [done|].
  destruct (String.eqb k k0) eqn:E.
  - apply String.eqb_eq in E. intros [= ->]. subst. by left.
  - intros Hd. right. by apply IH.
Qed.

Lemma dict_get_None d k : dict_get d k = None <-> k ∉ d.*1.
Proof.
  induction d as [|[k0 v0] d IH]; cbn.
  - split; [intros _; apply not_elem_of_nil|done].
  - destruct (String.eqb k k0) eqn:E.
    + apply String.eqb_eq in E. subst. split; [done|]. intros Hn. exfalso. apply Hn. by left.
    + apply String.eqb_neq in E. rewrite IH, not_elem_of_cons. naive_solver.
Qed.

Lemma dict_set_keys d k v :
  forall k', k' ∈ (dict_set d k v).*1 <-> k' = k \/ k' ∈ d.*1.
Proof.
  induction d as [|[k0 v0] d IH]; intros k'; cbn.
  - rewrite list_elem_of_singleton, elem_of_nil. naive_solver.
  - destruct (String.eqb k k0) eqn:E; cbn.
    + apply String.eqb_eq in E. subst k0. rewrite !elem_of_cons. naive_solver.
    + rewrite !elem_of_cons, IH. naive_solver.
Qed.

Lemma dict_set_NoDup d k v : NoDup d.*1 -> NoDup (dict_set d k v).*1.
Proof.
  induction d as [|[k0 v0] d IH]; cbn; intros Hnd.
  - apply NoDup_singleton.
  - apply NoDup_cons in Hnd as [Hk0 Hnd].
    destruct (String.eqb k k0) eqn:E; cbn.
    + apply String.eqb_eq in E. subst k0. by apply NoDup_cons.
    + apply String.eqb_neq in E. apply NoDup_cons. split; [|by apply IH].
      rewrite dict_set_keys. naive_solver.
Qed.

Lemma dict_update_NoDup other : forall d, NoDup d.*1 -> NoDup (dict_update d other).*1.
Proof.
  induction other as [|[k v] other IH]; intros d Hnd; cbn; [done|].
  apply IH. by apply dict_set_NoDup.
Qed.

Lemma normalize_keys_NoDup items : NoDup (normalize_keys items).*1.
Proof.
  unfold normalize_keys.
  assert (forall acc, NoDup acc.*1 ->
            NoDup (foldl (fun normalized kv =>
                     dict_set normalized (normalize_key kv.1) kv.2) acc items).*1) as Hgen.
  { induction items as [|[k v] items IH]; intros acc Hacc; cbn; [done|].
    apply IH. by apply dict_set_NoDup. }
  apply Hgen. constructor.
Qed.

(** [d.update(other)]: a key of [other] gets its value from there, every
    other key keeps its value. *)
Lemma dict_get_update other : forall d k,
  NoDup other.*1 ->
  dict_get (dict_update d other) k =
    match dict_get other k with
    | Some v => Some v
    | None => dict_get d k
    end.
Proof.
  induction other as [|[k0 v0] other IH]; intros d k Hnd; cbn; [done|].
  apply NoDup_cons in Hnd as [Hk0 Hnd].
  change (foldl _ (dict_set d k0 v0) other) with (dict_update (dict_set d k0 v0) other).
  rewrite IH by done.
  destruct (String.eqb k k0) eqn:E.
  - apply String.eqb_eq in E. subst k0.
    assert (dict_get other k = None) as -> by (by apply dict_get_None).
    apply dict_get_set_eq.
  - apply String.eqb_neq in E. destruct (dict_get other k); [done|].
    by apply dict_get_set_ne.
Qed.

Lemma merged_config_NoDup pr environ : NoDup (merged_config pr environ).*1.
Proof.
  unfold merged_config. cbn.
  repeat apply dict_update_NoDup. constructor.
Qed.

(** The precedence among the sources of one key: the environment, then
    the section of the parser, then the [global] section. *)
Lemma merged_config_lookup pr environ key :
  dict_get (merged_config pr environ) key =
    match dict_get (normalize_keys (get_environ_vars environ)) key with
    | Some v => Some v
    | None =>
        match dict_get (normalize_keys (get_config_section pr (name pr))) key with
        | Some v => Some v
        | None => dict_get (normalize_keys (get_config_section pr "global")) key
        end
    end.
Proof.
  unfold merged_config. cbn.
  rewrite !dict_get_update by apply normalize_keys_NoDup. cbn.
  by repeat case_match.
Qed.

End DictProps.

Section StoreProps.
Import Py Optparse Baseparser Resolution Stores.
Context `{Conversions}.

Lemma nargs_set_refl op : nargs_set op op.
Proof. by left. Qed.

Lemma nargs_set_trans a b c : nargs_set a b -> nargs_set b c -> nargs_set a c.
Proof.
  intros [->|[Ha ->]] [->|[Hb ->]]; unfold nargs_set; eauto.
Qed.

Lemma nargs_set_fields op op' :
  nargs_set op op' ->
  dest op' = dest op /\ action op' = action op /\ otype op' = otype op
  /\ choices op' = choices op /\ get_opt_string op' = get_opt_string op.
Proof. by intros [->|[_ ->]]. Qed.

Lemma nargs_set_once op op' :
  nargs_set op op' -> action op <> ActAppend ->
  with_nargs op' (Some 1%nat) = with_nargs op (Some 1%nat).
Proof. by intros [->|[_ ->]]. Qed.

Lemma nargs_set_append op op' :
  nargs_set op op' -> action op = ActAppend -> op' = op.
Proof. intros [->|[Hn _]]; done. Qed.

Lemma evolves_refl st : evolves st st.
Proof. repeat split. intros o op Hop. exists op. split; [done|apply nargs_set_refl]. Qed.

Lemma evolves_trans a b c : evolves a b -> evolves b c -> evolves a c.
Proof.
  intros (P1 & G1 & L1 & O1) (P2 & G2 & L2 & O2). repeat split; try congruence.
  intros o op Hop. destruct (O1 _ _ Hop) as (op1 & H1 & N1).
  destruct (O2 _ _ H1) as (op2 & H2 & N2). exists op2. split; [done|].
  by eapply nargs_set_trans.
Qed.

Lemma evolves_lookup st st' o op :
  evolves st st' -> options st !! o = Some op ->
  exists op', options st' !! o = Some op' /\ nargs_set op op'.
Proof. intros (_ & _ & _ & Ho) Hop. by apply Ho. Qed.

Lemma evolves_lookup_None st st' o :
  evolves st st' -> options st !! o = None -> options st' !! o = None.
Proof.
  intros (_ & _ & Hl & _) Hop. apply lookup_ge_None. apply lookup_ge_None in Hop.
  by rewrite Hl.
Qed.

Lemma put_nargs_evolves st o op :
  options st !! o = Some op -> action op <> ActAppend ->
  evolves st (with_options st (<[o := with_nargs op (Some 1%nat)]> (options st))).
Proof.
  intros Hop Ha. repeat split; cbn; [by rewrite length_insert|].
  intros i x Hx. destruct (decide (i = o)) as [->|Hne].
  - rewrite list_lookup_insert_eq by (by eapply lookup_lt_Some).
    rewrite Hop in Hx. injection Hx as <-. eexists. split; [done|]. by right.
  - rewrite list_lookup_insert_ne by done. exists x. split; [done|apply nargs_set_refl].
Qed.

Lemma config_value_nargs_set op op' key val :
  nargs_set op op' -> config_value op' key val = config_value op key val.
Proof.
  intros Hn. unfold config_value.
  destruct (nargs_set_fields _ _ Hn) as (_ & -> & _).
  destruct (decide (action op = ActAppend)) as [Ha|Ha].
  - by rewrite (nargs_set_append _ _ Hn Ha).
  - by rewrite (nargs_set_once _ _ Hn Ha).
Qed.

Lemma set_nargs_evolves st o : evolves st (set_nargs st o).
Proof.
  unfold set_nargs. destruct (options st !! o) as [op|] eqn:Hop; [|apply evolves_refl].
  case_decide; [apply evolves_refl|by apply put_nargs_evolves].
Qed.

(** One round of the loop of [update_defaults]. *)
Lemma update_default_inv p pr key val defaults st st' r :
  update_default p (key, val) defaults st = (st', r) ->
  parsers st !! p = Some pr ->
  st' = match get_option pr key with
        | Some o => if String.eqb val "" then st else set_nargs st o
        | None => st
        end
  /\ match get_option pr key with
     | None => r = Ok defaults
     | Some o =>
         if String.eqb val "" then r = Ok defaults
         else match options st !! o with
              | None => r = Raise (OtherException "ReferenceError" "option")
              | Some op =>
                  r = (y <- config_value op key val ;; Ok (<[dest op := y]> defaults))
              end
     end.
Proof.
  intros Hu Hp. unfold update_default in Hu.
  unfold mbind at 1 in Hu. unfold get_parser in Hu. rewrite Hp in Hu.
  destruct (get_option pr key) as [o|]; [|by injection Hu as <- <-].
  destruct (String.eqb val ""); [by injection Hu as <- <-|].
  unfold mbind at 1 in Hu. unfold get_opt at 1 in Hu. unfold set_nargs.
  destruct (options st !! o) as [op|] eqn:Hop; [|by injection Hu as <- <-].
  unfold config_value. revert Hu.
  destruct (decide (action op = ActAppend)) as [Ha|Ha].
  - rewrite bool_decide_eq_false_2 by (rewrite Ha; set_solver).
    unfold mbind, ret, lift, get_opt. rewrite Hop. cbn [bind].
    destruct (convert_value op key (VList (split val))) as [y|e]; [|destruct e];
      intros [= <- <-]; done.
  - unfold mbind at 1. unfold mbind at 1. unfold put_opt at 1.
    cbn [ret]. unfold mbind at 1.
    destruct (bool_decide (action op ∈ [ActStoreTrue; ActStoreFalse; ActCount])).
    + unfold lift at 1. destruct (strtobool val) as [val2|e]; cbn [bind];
        [|intros [= <- <-]; done].
      unfold mbind, get_opt, lift, ret. cbn [options with_options].
      rewrite list_lookup_insert_eq by (by eapply lookup_lt_Some).
      destruct (convert_value (with_nargs op (Some 1%nat)) key val2) as [y|e]; [|destruct e];
        intros [= <- <-]; done.
    + cbn [ret bind].
      unfold mbind, get_opt, lift, ret. cbn [options with_options].
      rewrite list_lookup_insert_eq by (by eapply lookup_lt_Some).
      destruct (convert_value (with_nargs op (Some 1%nat)) key (VStr val)) as [y|e]; [|destruct e];
        intros [= <- <-]; done.
Qed.

Lemma update_default_step_evolves p pr key val defaults st st' r :
  update_default p (key, val) defaults st = (st', r) ->
  parsers st !! p = Some pr -> evolves st st'.
Proof.
  intros Hu Hp. destruct (update_default_inv _ _ _ _ _ _ _ _ Hu Hp) as [-> _].
  destruct (get_option pr key); [|apply evolves_refl].
  destruct (String.eqb val ""); [apply evolves_refl|apply set_nargs_evolves].
Qed.

Lemma for_each_evolves {A} (body : A -> gmap (option string) pyval -> M (gmap (option string) pyval)) L :
  (forall x d st st' r, body x d st = (st', r) -> evolves st st') ->
  forall d st st' r, for_each L body d st = (st', r) -> evolves st st'.
Proof.
  intros Hb. induction L as [|x L IH]; intros d st st' r; cbn.
  - intros [= <- <-]. apply evolves_refl.
  - unfold mbind. destruct (body x d st) as [st1 [d1|e]] eqn:E.
    + intros Hr. eapply evolves_trans; [by eapply Hb|by eapply IH].
    + intros [= <- <-]. by eapply Hb.
Qed.

Lemma update_default_evolves p kv d st st' r :
  update_default p kv d st = (st', r) -> evolves st st'.
Proof.
  destruct kv as [k v]. intros Hu.
  destruct (parsers st !! p) as [pr|] eqn:Hp.
  - by eapply update_default_step_evolves.
  - unfold update_default, mbind, get_parser in Hu. rewrite Hp in Hu.
    injection Hu as <- <-. apply evolves_refl.
Qed.

Lemma update_defaults_evolves p environ d st st' r :
  update_defaults p environ d st = (st', r) -> evolves st st'.
Proof.
  unfold update_defaults, mbind, get_parser.
  destruct (parsers st !! p) as [pr|]; [|intros [= <- <-]; apply evolves_refl].
  apply for_each_evolves. intros x. apply update_default_evolves.
Qed.

(** The loop of [update_defaults], seen from one destination that a
    single key of the merged dictionary writes. *)
Lemma update_defaults_loop st0 p pr key o op L :
  parsers st0 !! p = Some pr ->
  get_option pr key = Some o ->
  options st0 !! o = Some op ->
  (forall k v o' op',
      (k, v) ∈ L -> get_option pr k = Some o' -> options st0 !! o' = Some op' ->
      dest op' = dest op -> k = key) ->
  NoDup L.*1 ->
  forall st defaults st' defaults',
    evolves st0 st ->
    for_each L (update_default p) defaults st = (st', Ok defaults') ->
    match dict_get L key with
    | Some v =>
        if String.eqb v "" then defaults' !! dest op = defaults !! dest op
        else exists y, config_value op key v = Ok y /\ defaults' !! dest op = Some y
    | None => defaults' !! dest op = defaults !! dest op
    end.
Proof.
  intros Hp Hgo Hop. induction L as [|[k v] L IH]; intros Hsingle Hnd st defaults st' defaults' Hev.
  - cbn. by intros [= <- <-].
  - cbn [for_each]. unfold mbind.
    destruct (update_default p (k, v) defaults st) as [st1 [d1|e]] eqn:E; [|discriminate].
    intros Hrest.
    assert (Hp' : parsers st !! p = Some pr) by (by destruct Hev as (-> & _)).
    destruct (update_default_inv _ _ _ _ _ _ _ _ E Hp') as [_ Hr].
    pose proof (update_default_step_evolves _ _ _ _ _ _ _ _ E Hp') as Hev1.
    assert (Hev01 : evolves st0 st1) by (by eapply evolves_trans).
    cbn in Hnd. apply NoDup_cons in Hnd as [Hk Hnd].
    specialize (IH (fun k v o' op' Hin => Hsingle k v o' op' (list_elem_of_further _ _ _ Hin))
                   Hnd st1 d1 st' defaults' Hev01 Hrest).
    cbn [dict_get]. destruct (String.eqb key k) eqn:Ek.
    + apply String.eqb_eq in Ek. subst k.
      assert (dict_get L key = None) as HL by (by apply dict_get_None).
      rewrite HL in IH. rewrite IH. rewrite Hgo in Hr.
      destruct (String.eqb v ""); [by injection Hr as <-|].
      destruct (evolves_lookup _ _ _ _ Hev Hop) as (opc & Hopc & Hn). rewrite Hopc in Hr.
      rewrite (config_value_nargs_set _ _ _ _ Hn) in Hr.
      destruct (config_value op key v) as [y|]; [|discriminate]. cbn in Hr.
      injection Hr as ->. exists y. split; [done|].
      destruct (nargs_set_fields _ _ Hn) as (-> & _). apply lookup_insert_eq.
    + apply String.eqb_neq in Ek.
      assert (Hd1 : d1 !! dest op = defaults !! dest op).
      { destruct (get_option pr k) as [o'|] eqn:Ego; [|by injection Hr as <-].
        destruct (String.eqb v ""); [by injection Hr as <-|].
        destruct (options st !! o') as [opc|] eqn:Hopc; [|discriminate Hr].
        destruct (config_value opc k v) as [y|]; [|discriminate]. cbn in Hr.
        injection Hr as ->. apply lookup_insert_ne.
        destruct (options st0 !! o') as [op0|] eqn:Hop0.
        - destruct (evolves_lookup _ _ _ _ Hev Hop0) as (opc' & Hopc' & Hn).
          rewrite Hopc in Hopc'. injection Hopc' as <-.
          destruct (nargs_set_fields _ _ Hn) as (-> & _).
          intros Hd. apply Ek. symmetry. eapply Hsingle; [by left|done..].
        - apply (evolves_lookup_None _ _ _ Hev) in Hop0. congruence. }
      destruct (dict_get L key) as [v'|]; [|congruence].
      destruct (String.eqb v' ""); [congruence|done].
Qed.

Lemma attrs_of_lookup (ds : gmap (option string) pyval) d :
  attrs_of ds !! d = ds !! Some d.
Proof.
  unfold attrs_of.
  apply (map_fold_weak_ind (fun acc (m : gmap (option string) pyval) => acc !! d = m !! Some d)).
  - by rewrite !lookup_empty.
  - intros [s|] x m r Hm IH.
    + destruct (decide (s = d)) as [->|Hne].
      * by rewrite !lookup_insert_eq.
      * rewrite !lookup_insert_ne by congruence. done.
    + by rewrite lookup_insert_ne.
Qed.


Lemma check_value_nargs_set op op' opt v :
  nargs_set op op' -> check_value op' opt v = check_value op opt v.
Proof. by intros [->|[_ ->]]. Qed.

Lemma check_default_inv o ds st st' r :
  check_default o ds st = (st', r) ->
  st' = st
  /\ match options st !! o with
     | None => exists e, r = Raise e
     | Some op =>
         match ds !! dest op with
         | Some (VStr s) =>
             r = (v <- check_value op (get_opt_string op) (VStr s) ;;
                  Ok (<[dest op := v]> ds))
         | _ => r = Ok ds
         end
     end.
Proof.
  unfold check_default, mbind, get_opt.
  destruct (options st !! o) as [op|]; [|intros [= <- <-]; eauto].
  destruct (ds !! dest op) as [[]|]; try (intros [= <- <-]; done).
  unfold lift, ret. destruct (check_value op (get_opt_string op) (VStr s));
    intros [= <- <-]; done.
Qed.

Lemma writers_cons st d o l :
  writers st d (o :: l) =
    if option_writes st d o then o :: writers st d l else writers st d l.
Proof.
  unfold writers. rewrite filter_cons.
  destruct (option_writes st d o); by case_decide.
Qed.

Lemma option_writes_true st d o :
  option_writes st d o = true <-> exists op, options st !! o = Some op /\ dest op = d.
Proof.
  unfold option_writes. destruct (options st !! o) as [op|].
  - rewrite bool_decide_eq_true. naive_solver.
  - naive_solver.
Qed.

Lemma option_writes_false st d o op :
  option_writes st d o = false -> options st !! o = Some op -> dest op <> d.
Proof.
  unfold option_writes. intros Hw Hop. rewrite Hop in Hw.
  by apply bool_decide_eq_false in Hw.
Qed.

(** The second loop of [get_default_values] leaves a destination alone
    when none of the options writes it. *)
Lemma check_defaults_other st0 d l :
  writers st0 d l = [] ->
  forall st ds st' ds',
    evolves st0 st ->
    for_each l check_default ds st = (st', Ok ds') ->
    st' = st /\ ds' !! d = ds !! d.
Proof.
  induction l as [|o l IH]; intros Hw st ds st' ds' Hev; cbn.
  - by intros [= <- <-].
  - unfold mbind. destruct (check_default o ds st) as [st1 [d1|e]] eqn:E; [|discriminate].
    destruct (check_default_inv _ _ _ _ _ E) as [-> Hr]. intros Hrest.
    rewrite writers_cons in Hw.
    destruct (option_writes st0 d o) eqn:Ew; [discriminate Hw|].
    destruct (IH Hw _ _ _ _ Hev Hrest) as [-> Hl]. split; [done|]. rewrite Hl.
    destruct (options st0 !! o) as [op0|] eqn:Hop0.
    + destruct (evolves_lookup _ _ _ _ Hev Hop0) as (opc & Hopc & Hn).
      rewrite Hopc in Hr. destruct (nargs_set_fields _ _ Hn) as (Hd & _).
      pose proof (option_writes_false _ _ _ _ Ew Hop0) as Hdd.
      rewrite Hd in Hr.
      destruct (ds !! dest op0) as [[]|]; try (by injection Hr as <-).
      destruct (check_value opc (get_opt_string opc) (VStr s)); [|discriminate].
      cbn in Hr. injection Hr as ->. by apply lookup_insert_ne.
    + rewrite (evolves_lookup_None _ _ _ Hev Hop0) in Hr. by destruct Hr.
Qed.

(** ... and checks it once when exactly one option writes it. *)
Lemma check_defaults_one st0 o op l :
  options st0 !! o = Some op ->
  writers st0 (dest op) l = [o] ->
  forall st ds st' ds',
    evolves st0 st ->
    for_each l check_default ds st = (st', Ok ds') ->
    st' = st
    /\ match ds !! dest op with
       | Some (VStr s) =>
           exists y, check_value op (get_opt_string op) (VStr s) = Ok y
                     /\ ds' !! dest op = Some y
       | other => ds' !! dest op = other
       end.
Proof.
  intros Hop. induction l as [|o1 l IH]; intros Hw st ds st' ds' Hev; [discriminate Hw|].
  cbn. unfold mbind.
  destruct (check_default o1 ds st) as [st1 [d1|e]] eqn:E; [|discriminate].
  destruct (check_default_inv _ _ _ _ _ E) as [-> Hr]. intros Hrest.
  rewrite writers_cons in Hw.
  destruct (option_writes st0 (dest op) o1) eqn:Ew.
  - injection Hw as -> Hw.
    destruct (evolves_lookup _ _ _ _ Hev Hop) as (opc & Hopc & Hn).
    rewrite Hopc in Hr. destruct (nargs_set_fields _ _ Hn) as (Hd & _ & _ & _ & Hs).
    rewrite Hd in Hr.
    destruct (check_defaults_other _ _ _ Hw _ _ _ _ Hev Hrest) as [-> Hl].
    split; [done|]. rewrite Hl.
    destruct (ds !! dest op) as [[]|] eqn:Eds; try (injection Hr as ->; exact Eds).
    rewrite (check_value_nargs_set _ _ _ _ Hn), Hs in Hr.
    destruct (check_value op (get_opt_string op) (VStr s)) as [y|]; [|discriminate].
    cbn in Hr. injection Hr as ->. exists y. by rewrite lookup_insert_eq.
  - destruct (IH Hw _ _ _ _ Hev Hrest) as [-> Hl]. split; [done|].
    assert (d1 !! dest op = ds !! dest op) as Hsame.
    { destruct (options st0 !! o1) as [op1|] eqn:Hop1.
      - destruct (evolves_lookup _ _ _ _ Hev Hop1) as (opc & Hopc & Hn).
        rewrite Hopc in Hr. destruct (nargs_set_fields _ _ Hn) as (Hd & _).
        pose proof (option_writes_false _ _ _ _ Ew Hop1) as Hdd. rewrite Hd in Hr.
        destruct (ds !! dest op1) as [[]|]; try (by injection Hr as <-).
        destruct (check_value opc (get_opt_string opc) (VStr s)); [|discriminate].
        cbn in Hr. injection Hr as ->. by apply lookup_insert_ne.
      - rewrite (evolves_lookup_None _ _ _ Hev Hop1) in Hr. by destruct Hr. }
    by rewrite Hsame in Hl.
Qed.


Lemma only_key_spec st pr environ key d :
  only_key st pr environ key d = true ->
  forall k v o' op',
    (k, v) ∈ merged_config pr environ -> get_option pr k = Some o' ->
    options st !! o' = Some op' -> dest op' = d -> k = key.
Proof.
  unfold only_key. rewrite forallb_forall. intros Hall k v o' op' Hin Hgo Hop Hd.
  apply list_elem_of_In in Hin. specialize (Hall _ Hin). cbn in Hall.
  rewrite Hgo, Hop in Hall. rewrite (bool_decide_eq_true_2 _ Hd) in Hall.
  by apply String.eqb_eq in Hall.
Qed.

Lemma get_all_options_evolves st st' pr :
  evolves st st' -> _get_all_options st' pr = _get_all_options st pr.
Proof. intros (_ & Hg & _). unfold _get_all_options. by rewrite Hg. Qed.

Lemma get_default_values_evolves p environ st st' r :
  get_default_values p environ st = (st', r) -> evolves st st'.
Proof.
  unfold get_default_values, mbind, get_parser.
  destruct (parsers st !! p) as [pr|]; [|intros [= <- <-]; apply evolves_refl].
  destruct (process_default_values pr); cbn [negb];
    [|unfold lift; intros [= <- <-]; apply evolves_refl].
  destruct (update_defaults p environ (defaults pr) st) as [st1 [ds1|e]] eqn:E1;
    [|intros [= <- <-]; by eapply update_defaults_evolves].
  apply update_defaults_evolves in E1.
  destruct (for_each (_get_all_options st1 pr) check_default ds1 st1) as [st2 [ds2|e]] eqn:E2.
  - unfold lift. intros [= <- <-]. eapply evolves_trans; [exact E1|].
    eapply for_each_evolves; [|exact E2]. intros x d s s' r' Hc.
    destruct (check_default_inv _ _ _ _ _ Hc) as [-> _]. apply evolves_refl.
  - intros [= <- <-]. eapply evolves_trans; [exact E1|].
    eapply for_each_evolves; [|exact E2]. intros x d s s' r' Hc.
    destruct (check_default_inv _ _ _ _ _ Hc) as [-> _]. apply evolves_refl.
Qed.

(** The default that [get_default_values] resolves for a destination. *)
Lemma get_default_values_resolved p pr environ st key o op d st' values :
  parsers st !! p = Some pr ->
  process_default_values pr = true ->
  get_option pr key = Some o ->
  options st !! o = Some op ->
  dest op = Some d ->
  only_key st pr environ key (Some d) = true ->
  writers st (Some d) (_get_all_options st pr) = [o] ->
  get_default_values p environ st = (st', Ok values) ->
  resolved_default pr environ op key = Ok (values !! d).
Proof.
  intros Hp Hpd Hgo Hop Hd Hok Hw. rewrite <- Hd in Hok, Hw.
  unfold get_default_values, mbind, get_parser. rewrite Hp, Hpd. cbn [negb].
  destruct (update_defaults p environ (defaults pr) st) as [st1 [ds1|e]] eqn:E1; [|discriminate].
  pose proof (update_defaults_evolves _ _ _ _ _ _ E1) as Hev.
  unfold update_defaults, mbind, get_parser in E1. rewrite Hp in E1.
  pose proof (update_defaults_loop st p pr key o op _ Hp Hgo Hop
                (only_key_spec _ _ _ _ _ Hok) (merged_config_NoDup _ _)
                _ _ _ _ (evolves_refl st) E1) as Hloop.
  rewrite (get_all_options_evolves _ _ _ Hev).
  destruct (for_each (_get_all_options st pr) check_default ds1 st1) as [st2 [ds2|e]] eqn:E2;
    [|discriminate].
  destruct (check_defaults_one st o op _ Hop Hw _ _ _ _ Hev E2) as [-> Hcheck].
  unfold lift, Values. destruct (ds2 !! None); [discriminate|]. intros [= <- <-].
  rewrite attrs_of_lookup, <- Hd. unfold resolved_default.
  destruct (dict_get (merged_config pr environ) key) as [v|].
  - destruct (String.eqb v "").
    + cbn [bind]. rewrite <- Hloop. destruct (ds1 !! dest op) as [[]|]; try by rewrite Hcheck.
      destruct Hcheck as (y & -> & ->). done.
    + destruct Hloop as (y & -> & Hy). cbn [bind]. rewrite Hy in Hcheck.
      destruct y; try by rewrite Hcheck. destruct Hcheck as (y & -> & ->). done.
  - cbn [bind]. rewrite <- Hloop. destruct (ds1 !! dest op) as [[]|]; try by rewrite Hcheck.
    destruct Hcheck as (y & -> & ->). done.
Qed.

(** ** The command line *)

Lemma ensure_value_other values d v values' cur d' :
  ensure_value values d v = (values', cur) -> d <> d' -> values' !! d' = values !! d'.
Proof.
  unfold ensure_value. destruct (values !! d) as [[]|]; intros [= <- <-] Hne;
    rewrite ?lookup_insert_ne; done.
Qed.

Lemma take_action_other op value values values' d :
  take_action op value values = Ok values' ->
  dest op <> Some d -> values' !! d = values !! d.
Proof.
  unfold take_action. intros Ht Hne.
  destruct (dest op) as [d0|] eqn:Hd; [|by destruct (action op)].
  assert (d0 <> d) by congruence.
  destruct (action op); try discriminate Ht; try (injection Ht as <-; by rewrite lookup_insert_ne).
  - destruct (ensure_value values d0 (VList [])) as [vs cur] eqn:Ee.
    destruct cur; try discriminate Ht. destruct value; try discriminate Ht.
    injection Ht as <-. rewrite lookup_insert_ne by done. by eapply ensure_value_other.
  - destruct (ensure_value values d0 (VList [])) as [vs cur] eqn:Ee.
    destruct cur; try discriminate Ht. destruct (const op); try discriminate Ht.
    injection Ht as <-. rewrite lookup_insert_ne by done. by eapply ensure_value_other.
  - destruct (ensure_value values d0 (VInt 0)) as [vs cur] eqn:Ee.
    destruct (int_of cur); try discriminate Ht.
    injection Ht as <-. rewrite lookup_insert_ne by done. by eapply ensure_value_other.
Qed.

Lemma take_action_stored op value values values' d :
  take_action op value values = Ok values' ->
  dest op = Some d ->
  action op ∈ [ActStore; ActStoreConst; ActStoreTrue; ActStoreFalse] ->
  values' !! d = Some (stored op value).
Proof.
  unfold take_action, stored. intros Ht Hd Ha. rewrite Hd in Ht.
  destruct (action op); try (exfalso; set_solver);
    injection Ht as <-; by rewrite lookup_insert_eq.
Qed.

Lemma process_inv p pr occ values st st' r :
  process p occ values st = (st', r) ->
  parsers st !! p = Some pr ->
  st' = st
  /\ match get_option pr (occ_opt occ) with
     | None => r = Raise (SystemExit 2)
     | Some o =>
         match options st !! o with
         | None => exists e, r = Raise e
         | Some op =>
             r = (value <- match convert_value op (occ_opt occ) (occ_value occ) with
                           | Raise (OptionValueError _) => Raise (SystemExit 2)
                           | x => x
                           end ;;
                  take_action op value values)
         end
     end.
Proof.
  intros Hpr Hp. unfold process, mbind, get_parser in Hpr. rewrite Hp in Hpr.
  destruct (get_option pr (occ_opt occ)) as [o|]; [|by injection Hpr as <- <-].
  unfold get_opt in Hpr. destruct (options st !! o) as [op|];
    [|injection Hpr as <- <-; eauto].
  unfold lift in Hpr.
  destruct (convert_value op (occ_opt occ) (occ_value occ)) as [v|e]; [|destruct e];
    by injection Hpr as <- <-.
Qed.

Lemma cli_other p pr st d occs :
  parsers st !! p = Some pr ->
  forallb (fun occ => negb (writes st pr (Some d) occ)) occs = true ->
  forall values st' values',
    for_each occs (process p) values st = (st', Ok values') ->
    st' = st /\ values' !! d = values !! d.
Proof.
  intros Hp. induction occs as [|occ occs IH]; intros Hall values st' values'; cbn.
  - by intros [= <- <-].
  - cbn in Hall. apply andb_true_iff in Hall as [Hocc Hall]. unfold mbind.
    destruct (process p occ values st) as [st1 [v1|e]] eqn:E; [|discriminate].
    destruct (process_inv _ _ _ _ _ _ _ E Hp) as [-> Hr]. intros Hrest.
    destruct (IH Hall _ _ _ Hrest) as [-> Hl]. split; [done|]. rewrite Hl.
    unfold writes in Hocc.
    destruct (get_option pr (occ_opt occ)) as [o|]; [|discriminate].
    destruct (options st !! o) as [op|]; [|by destruct Hr].
    apply negb_true_iff, bool_decide_eq_false in Hocc.
    destruct (match convert_value op (occ_opt occ) (occ_value occ) with
              | Raise (OptionValueError _) => Raise (SystemExit 2) | x => x end);
      [|discriminate].
    cbn in Hr. symmetry in Hr. by eapply take_action_other.
Qed.

Lemma cli_stored p pr st d pre occ post o op :
  parsers st !! p = Some pr ->
  get_option pr (occ_opt occ) = Some o ->
  options st !! o = Some op ->
  dest op = Some d ->
  action op ∈ [ActStore; ActStoreConst; ActStoreTrue; ActStoreFalse] ->
  forallb (fun occ => negb (writes st pr (Some d) occ)) post = true ->
  forall values st' values',
    for_each (pre ++ occ :: post) (process p) values st = (st', Ok values') ->
    exists v, convert_value op (occ_opt occ) (occ_value occ) = Ok v
              /\ values' !! d = Some (stored op v).
Proof.
  intros Hp Hgo Hop Hd Ha Hpost. induction pre as [|x pre IH]; intros values st' values'.
  - cbn. unfold mbind.
    destruct (process p occ values st) as [st1 [v1|e]] eqn:E; [|discriminate].
    destruct (process_inv _ _ _ _ _ _ _ E Hp) as [-> Hr]. intros Hrest.
    destruct (cli_other _ _ _ _ _ Hp Hpost _ _ _ Hrest) as [_ Hl]. rewrite Hl.
    rewrite Hgo, Hop in Hr.
    destruct (convert_value op (occ_opt occ) (occ_value occ)) as [v|e]; [|by destruct e].
    cbn in Hr. exists v. split; [done|]. symmetry in Hr. by eapply take_action_stored.
  - cbn. unfold mbind.
    destruct (process p x values st) as [st1 [v1|e]] eqn:E; [|discriminate].
    destruct (process_inv _ _ _ _ _ _ _ E Hp) as [-> _]. apply IH.
Qed.

Lemma writes_evolves st st' pr d occ :
  evolves st st' -> writes st' pr d occ = writes st pr d occ.
Proof.
  intros Hev. unfold writes. destruct (get_option pr (occ_opt occ)) as [o|]; [|done].
  destruct (options st !! o) as [op|] eqn:Hop.
  - destruct (evolves_lookup _ _ _ _ Hev Hop) as (op' & -> & Hn).
    by destruct (nargs_set_fields _ _ Hn) as (-> & _).
  - by rewrite (evolves_lookup_None _ _ _ Hev Hop).
Qed.


Lemma process_loop_store p occs : forall values st st' r,
  for_each occs (process p) values st = (st', r) -> st' = st.
Proof.
  induction occs as [|occ occs IH]; intros values st st' r; cbn.
  - by intros [= <- <-].
  - unfold mbind. destruct (process p occ values st) as [st1 [v1|e]] eqn:E.
    + intros Hrest. apply IH in Hrest as ->.
      unfold process, mbind, get_parser, get_opt, lift, raise in E.
      by repeat case_match; simplify_eq.
    + intros [= <- <-].
      unfold process, mbind, get_parser, get_opt, lift, raise in E.
      by repeat case_match; simplify_eq.
Qed.

Lemma occurrences_cons st pr d occ occs :
  occurrences st pr d (occ :: occs) =
    (if writes st pr d occ then 1 else 0) + occurrences st pr d occs.
Proof.
  unfold occurrences. rewrite filter_cons.
  destruct (writes st pr d occ); case_decide; try done.
  cbn [length]. lia.
Qed.

Lemma occurrences_Permutation st pr d l l' :
  l ≡ₚ l' -> occurrences st pr d l = occurrences st pr d l'.
Proof. intros Hp. unfold occurrences. by rewrite Hp. Qed.

(** On the command line a counting option adds one each time it occurs. *)
Lemma cli_count p pr st d occs :
  parsers st !! p = Some pr ->
  counted st pr (Some d) occs = true ->
  forall values n st' values',
    values !! d = Some (VInt n) ->
    for_each occs (process p) values st = (st', Ok values') ->
    values' !! d = Some (VInt (n + occurrences st pr (Some d) occs)).
Proof.
  intros Hp. induction occs as [|occ occs IH]; intros Hall values n st' values' Hc.
  - cbn. intros [= <- <-]. rewrite Hc. f_equal. f_equal. unfold occurrences. cbn. lia.
  - cbn in Hall. apply andb_true_iff in Hall as [Hocc Hall]. cbn. unfold mbind.
    destruct (process p occ values st) as [st1 [v1|e]] eqn:E; [|discriminate].
    destruct (process_inv _ _ _ _ _ _ _ E Hp) as [-> Hr]. intros Hrest.
    rewrite occurrences_cons. unfold writes.
    destruct (get_option pr (occ_opt occ)) as [o|]; [|discriminate].
    destruct (options st !! o) as [op|]; [|by destruct Hr].
    destruct (match convert_value op (occ_opt occ) (occ_value occ) with
              | Raise (OptionValueError _) => Raise (SystemExit 2) | x => x end) as [v|];
      [|discriminate].
    cbn in Hr. symmetry in Hr.
    destruct (bool_decide (dest op = Some d)) eqn:Ed.
    + apply bool_decide_eq_true in Ed. cbn in Hocc. apply bool_decide_eq_true in Hocc.
      assert (v1 !! d = Some (VInt (n + 1))) as Hv1.
      { unfold take_action in Hr. rewrite Hocc, Ed in Hr. unfold ensure_value in Hr.
        rewrite Hc in Hr. cbn in Hr. injection Hr as <-. by rewrite lookup_insert_eq. }
      rewrite (IH Hall _ _ _ _ Hv1 Hrest). f_equal. f_equal. lia.
    + apply bool_decide_eq_false in Ed.
      assert (v1 !! d = Some (VInt n)) as Hv1
        by (by rewrite (take_action_other _ _ _ _ _ Hr Ed)).
      rewrite (IH Hall _ _ _ _ Hv1 Hrest). f_equal.
Qed.

End StoreProps.

Section FrameProps.
Import Py Optparse Baseparser Resolution Mutation Stores.
Context `{Conversions}.

Lemma frame_refl c st : frame c st st.
Proof. repeat split; try done. intros o op Hop. exists op. split; [done|apply nargs_set_refl]. Qed.






Lemma frame_set_container c o cont st :
  frame c st (with_containers st (<[o := cont]> (containers st))).
Proof.
  repeat split; cbn; try done.
  intros i op Hop. exists op. split; [done|apply nargs_set_refl].
Qed.






Lemma process_loop_frame c p occs values st st' r :
  for_each occs (process p) values st = (st', r) -> frame c st st'.
Proof. intros Hl. apply process_loop_store in Hl as ->. apply frame_refl. Qed.
















(** ** The resolved defaults of the other parsers *)

























Lemma no_writes_evolves st st' pr d l :
  evolves st st' ->
  forallb (fun occ => negb (writes st' pr d occ)) l
  = forallb (fun occ => negb (writes st pr d occ)) l.
Proof.
  intros Hev. induction l as [|occ l IH]; [done|]. cbn.
  by rewrite IH, (writes_evolves _ _ _ _ _ Hev).
Qed.

(** C1, amended: for an option that alone writes its destination and is
    reached under one key, the text of the environment overrides that of
    the section of the command, which overrides that of the global
    section; the text that wins decides the default unless it is empty,
    in which case the built-in default stands; without an occurrence on
    the command line the parsed value is that default, and the last
    occurrence of a storing option on the command line overrides it. *)
Theorem config_precedence p pr environ st key o op d :
  parsers st !! p = Some pr ->
  process_default_values pr = true ->
  get_option pr key = Some o ->
  options st !! o = Some op ->
  dest op = Some d ->
  only_key st pr environ key (Some d) = true ->
  writers st (Some d) (_get_all_options st pr) = [o] ->
  dict_get (merged_config pr environ) key =
    match dict_get (normalize_keys (get_environ_vars environ)) key with
    | Some v => Some v
    | None =>
        match dict_get (normalize_keys (get_config_section pr (name pr))) key with
        | Some v => Some v
        | None => dict_get (normalize_keys (get_config_section pr "global")) key
        end
    end
  /\ forall occs st' values,
      parse_args p environ occs st = (st', Ok values) ->
      (forallb (fun occ => negb (writes st pr (Some d) occ)) occs = true ->
       resolved_default pr environ op key = Ok (values !! d))
      /\ (forall pre occ post,
            occs = pre ++ occ :: post ->
            get_option pr (occ_opt occ) = Some o ->
            action op ∈ [ActStore; ActStoreConst; ActStoreTrue; ActStoreFalse] ->
            forallb (fun occ => negb (writes st pr (Some d) occ)) post = true ->
            exists op' v,
              options st' !! o = Some op'
              /\ convert_value op' (occ_opt occ) (occ_value occ) = Ok v
              /\ values !! d = Some (stored op v)).
Proof.
  intros Hp Hpd Hgo Hop Hd Hok Hw. split; [apply merged_config_lookup|].
  intros occs st' values. unfold parse_args, mbind.
  destruct (get_default_values p environ st) as [st1 [vals|e]] eqn:E; [|discriminate].
  pose proof (get_default_values_evolves _ _ _ _ _ E) as Hev.
  assert (Hp1 : parsers st1 !! p = Some pr) by (by destruct Hev as (-> & _)).
  intros Hloop. pose proof (process_loop_store _ _ _ _ _ _ Hloop) as ->.
  split.
  - intros Hno.
    rewrite (get_default_values_resolved _ _ _ _ _ _ _ _ _ _ Hp Hpd Hgo Hop Hd Hok Hw E).
    f_equal. symmetry.
    eapply (cli_other p pr st1 d occs Hp1); [|exact Hloop].
    by rewrite (no_writes_evolves _ _ _ _ _ Hev).
  - intros pre occ post -> Hgocc Ha Hpost.
    destruct (evolves_lookup _ _ _ _ Hev Hop) as (op' & Hop' & Hn).
    destruct (nargs_set_fields _ _ Hn) as (Hd' & Ha' & _).
    exists op'.
    assert (Hd1 : dest op' = Some d) by congruence.
    assert (Ha1 : action op' ∈ [ActStore; ActStoreConst; ActStoreTrue; ActStoreFalse])
      by (by rewrite Ha').
    assert (Hpost1 : forallb (fun occ => negb (writes st1 pr (Some d) occ)) post = true)
      by (by rewrite (no_writes_evolves _ _ _ _ _ Hev)).
    destruct (cli_stored p pr st1 d pre occ post o op' Hp1 Hgocc Hop' Hd1 Ha1 Hpost1
                _ _ _ Hloop) as (v & Hv & Hval).
    exists v. repeat split; try done. rewrite Hval. f_equal.
    unfold stored. rewrite Ha'. by destruct Hn as [->|[_ ->]].
Qed.

End FrameProps.

Section FreezeProps.
Import Py Freeze.

Lemma join_singleton sep s : join sep [s] = s.
Proof. reflexivity. Qed.


Lemma Requirement_str_pin dist version :
  dist_specs dist = [("==", version)] ->
  Requirement_str (as_requirement dist) = project_name dist +:+ "==" +:+ version.
Proof. intros Hs. unfold Requirement_str, as_requirement. cbn. by rewrite Hs. Qed.

(** C7: for a distribution that no version control backend owns and
    whose only specifier is [==] with a version without legacy suffix,
    the record is not editable, has no comment lines, nothing is
    reported, and it renders as [name==version] and one newline; without
    exactly one [==] specifier the assertion fails. *)
Theorem plain_pin vcs dist links find_tags :
  not_owned vcs dist ->
  (forall version,
      dist_specs dist = [("==", version)] ->
      _rev_re_search version = None ->
      _date_re_search version = None ->
      exists f,
        from_dist vcs dist links find_tags = ([], Ok f)
        /\ editable f = false
        /\ comments f = []
        /\ to_str f = (project_name dist +:+ "==" +:+ version) +:+ nl)
  /\ ((forall version, dist_specs dist <> [("==", version)]) ->
      snd (from_dist vcs dist links find_tags) = Raise AssertionError).
Proof.
  intros Hown. unfold not_owned in Hown. split.
  - intros version Hs Hr Hd.
    eexists. unfold from_dist. rewrite Hown. cbn [as_requirement specs].
    rewrite Hs. cbn [String.eqb Ascii.eqb Bool.eqb].
    rewrite Hr, Hd. repeat split.
    unfold to_str. cbn. by rewrite (Requirement_str_pin _ _ Hs).
  - intros Hne. unfold from_dist. rewrite Hown. cbn [as_requirement specs].
    destruct (dist_specs dist) as [|[op v] [|s2 rest]] eqn:E; try reflexivity.
    destruct (String.eqb op "==") eqn:Eop; [|reflexivity].
    apply String.eqb_eq in Eop. subst op. exfalso. by eapply Hne.
Qed.


(** C10: in the branch of distributions that no backend owns, when the
    version matches a legacy pattern and no svn backend is registered,
    [svn_location] is read before it was assigned: the reconstruction
    raises [UnboundLocalError] and reports nothing. *)
Theorem svn_backend_missing vcs dist links find_tags version :
  not_owned vcs dist ->
  dist_specs dist = [("==", version)] ->
  is_Some (_rev_re_search version) \/ is_Some (_date_re_search version) ->
  get_backend vcs "svn" = None ->
  from_dist vcs dist links find_tags = ([], Raise (UnboundLocalError "svn_location")).
Proof.
  intros Hown Hs Hm Hb. unfold not_owned in Hown.
  unfold from_dist. rewrite Hown.
  cbn [as_requirement specs]. rewrite Hs. cbn [String.eqb Ascii.eqb Bool.eqb].
  rewrite Hb.
  destruct (_rev_re_search version) as [[? ?]|], (_date_re_search version) as [[? ?]|];
    try reflexivity.
  destruct Hm as [[? Hx]|[? Hx]]; discriminate.
Qed.
End FreezeProps.

Section MergeProps.
Import Py Optparse Baseparser Basecommand.

Lemma carried_over_NoDup : NoDup carried_over.
Proof. apply (bool_decide_unpack _). vm_compute. reflexivity. Qed.

Lemma merge_attrs_lookup attrs : forall initial options merged,
  NoDup attrs ->
  merge_attrs initial attrs options = Ok merged ->
  (forall a, a ∈ attrs ->
     exists g, initial !! a = Some g
               /\ merged !! a = (if truthy g then Some g else options !! a)
               /\ is_Some (merged !! a))
  /\ (forall a, a ∉ attrs -> merged !! a = options !! a).
Proof.
  induction attrs as [|x attrs IH]; intros initial options merged Hnd Hm.
  - cbn in Hm. injection Hm as <-. split; [intros a Ha; by apply elem_of_nil in Ha | done].
  - apply NoDup_cons in Hnd as [Hx Hnd]. cbn in Hm.
    unfold merge_attr, getattr in Hm.
    destruct (initial !! x) as [g|] eqn:Eg; [|discriminate]. cbn in Hm.
    destruct (truthy g) eqn:Et.
    + cbn in Hm. destruct (IH _ _ _ Hnd Hm) as [Hin Hout]. split.
      * intros a [->|Ha]%elem_of_cons.
        -- exists g. rewrite Hout by done. rewrite Et, lookup_insert_eq. eauto.
        -- destruct (Hin a Ha) as (g' & Hg' & Hm' & Hs). exists g'. repeat split; try done.
           rewrite Hm'. destruct (truthy g'); [done|].
           apply lookup_insert_ne. intros ->. done.
      * intros a Ha. apply not_elem_of_cons in Ha as [Hne Ha].
        rewrite Hout by done. by apply lookup_insert_ne.
    + destruct (options !! x) as [c|] eqn:Ec; [|discriminate]. cbn in Hm.
      destruct (IH _ _ _ Hnd Hm) as [Hin Hout]. split.
      * intros a [->|Ha]%elem_of_cons.
        -- exists g. rewrite Hout by done. rewrite Et, lookup_insert_eq, Ec. eauto.
        -- destruct (Hin a Ha) as (g' & Hg' & Hm' & Hs). exists g'. repeat split; try done.
           rewrite Hm'. destruct (truthy g'); [done|].
           apply lookup_insert_ne. intros ->. done.
      * intros a Ha. apply not_elem_of_cons in Ha as [Hne Ha].
        rewrite Hout by done. by apply lookup_insert_ne.
Qed.

Lemma add_attr_lookup initial attr options merged :
  add_attr initial attr options = Ok merged ->
  (exists a b v, options !! attr = Some a /\ initial !! attr = Some b
                 /\ py_add a b = Ok v /\ merged !! attr = Some v)
  /\ (forall a, a <> attr -> merged !! a = options !! a).
Proof.
  unfold add_attr, getattr. intros Hm.
  destruct (options !! attr) as [a|] eqn:Ea; [|discriminate]. cbn in Hm.
  destruct (initial !! attr) as [b|] eqn:Eb; [|discriminate]. cbn in Hm.
  destruct (py_add a b) as [v|] eqn:Ev; [|discriminate]. cbn in Hm.
  injection Hm as <-. split.
  - exists a, b, v. by rewrite lookup_insert_eq.
  - intros k Hk. by apply lookup_insert_ne.
Qed.

Lemma py_add_int a b x y :
  int_of a = Some x -> int_of b = Some y -> py_add a b = Ok (VInt (x + y)).
Proof.
  destruct a, b; cbn; intros; simplify_eq; reflexivity.
Qed.

Lemma merge_attrs_total initial attrs : forall options,
  (forall a, a ∈ attrs -> is_Some (initial !! a) /\ is_Some (options !! a)) ->
  exists merged, merge_attrs initial attrs options = Ok merged.
Proof.
  induction attrs as [|x attrs IH]; intros options Hall; [by eexists|].
  destruct (Hall x) as [[g Hg] [c Hc]]; [by left|].
  cbn. unfold merge_attr, getattr. rewrite Hg. cbn.
  assert (exists v, (if truthy g then Ok g
                     else match options !! x with
                          | Some v => Ok v
                          | None => Raise (AttributeError x)
                          end) = Ok v) as [v ->].
  { destruct (truthy g); [by eexists|]. rewrite Hc. by eexists. }
  cbn. apply IH. intros a Ha. destruct (Hall a) as [? [c' Hc']]; [by right|].
  split; [done|]. destruct (decide (x = a)) as [->|Hne].
  - rewrite lookup_insert_eq. by eexists.
  - rewrite lookup_insert_ne by done. by eexists.
Qed.

(** C2, amended: for every attribute of the carry-over set the merged
    value is the value of the global scope, falling back to the value of
    the command scope only when the global value is false; the merge
    succeeds when both scopes carry the attributes and the counters are
    integers. *)
Theorem merge_prefers_global initial options :
  (forall merged,
      merge_options initial options = Ok merged ->
      forall attr g c,
        attr ∈ carried_over ->
        initial !! attr = Some g -> options !! attr = Some c ->
        merged !! attr = Some (py_or g c))
  /\ ((forall attr, attr ∈ carried_over ->
         is_Some (initial !! attr) /\ is_Some (options !! attr)) ->
      (forall attr, attr ∈ ["quiet"; "verbose"] ->
         exists a b x y, options !! attr = Some a /\ initial !! attr = Some b
                         /\ int_of a = Some x /\ int_of b = Some y) ->
      exists merged, merge_options initial options = Ok merged).
Proof.
  split.
  - intros merged Hm attr g c Ha Hg Hc. unfold merge_options in Hm.
    destruct (merge_attrs initial carried_over options) as [m1|] eqn:E1; [|discriminate].
    cbn in Hm.
    destruct (add_attr initial "quiet" m1) as [m2|] eqn:E2; [|discriminate].
    cbn in Hm.
    apply merge_attrs_lookup in E1 as [Hin _]; [|apply carried_over_NoDup].
    apply add_attr_lookup in E2 as [_ H2]. apply add_attr_lookup in Hm as [_ H3].
    assert (attr <> "quiet" /\ attr <> "verbose") as [Hq Hv].
    { split; intros ->; revert Ha; apply (bool_decide_unpack _); vm_compute; reflexivity. }
    rewrite H3, H2 by done. destruct (Hin attr Ha) as (g' & Hg' & Hm' & _).
    rewrite Hg in Hg'. injection Hg' as <-. rewrite Hm'. unfold py_or.
    destruct (truthy g); [done|]. exact Hc.
  - intros Hall Hcnt.
    destruct (merge_attrs_total initial carried_over options Hall) as [m1 E1].
    unfold merge_options. rewrite E1. cbn.
    apply merge_attrs_lookup in E1 as [_ Hout]; [|apply carried_over_NoDup].
    destruct (Hcnt "quiet") as (a & b & x & y & Ha & Hb & Hx & Hy); [set_solver|].
    unfold add_attr at 1, getattr.
    rewrite Hout, Ha, Hb by (apply (bool_decide_unpack _); vm_compute; reflexivity).
    cbn. rewrite (py_add_int _ _ _ _ Hx Hy). cbn.
    destruct (Hcnt "verbose") as (a' & b' & x' & y' & Ha' & Hb' & Hx' & Hy'); [set_solver|].
    unfold add_attr, getattr. rewrite lookup_insert_ne by done.
    rewrite Hout, Ha', Hb' by (apply (bool_decide_unpack _); vm_compute; reflexivity).
    cbn. rewrite (py_add_int _ _ _ _ Hx' Hy'). cbn. by eexists.
Qed.
End MergeProps.

Section MainProps.
Import Py Optparse Baseparser Basecommand Traces.
Context `{Host} `{StatusCodes}.

Lemma new_events_app w w' evs :
  trace w' = trace w ++ evs -> new_events w w' = evs.
Proof. intros E. unfold new_events. rewrite E. by rewrite drop_app_length. Qed.




































(** C9: storing the complete log over a log file that exists opens it for
    writing, not for appending: after the path has been reported, the
    file holds the separator, the banner and the new log, and its earlier
    content is gone. *)
Theorem stored_log_overwrites options fn w old :
  options !! "log_file" = Some (VStr fn) ->
  files w !! abspath (expanduser fn) = Some old ->
  abspath (expanduser fn) ∉ dirs w ->
  dirname (abspath (expanduser fn)) ∈ dirs w ->
  exists w',
    store_complete_log options w = (w', Ok tt)
    /\ files w' !! abspath (expanduser fn)
       = Some ((separator +:+ banner) +:+ join nl (complete_log w))
    /\ new_events w w'
       = [Log FATAL ("Storing complete log in " +:+ str_of (VStr fn));
          Open (abspath (expanduser fn)) ModeW;
          Close (abspath (expanduser fn))].
Proof.
  intros Hlf Hold Hnd Hdir.
  unfold store_complete_log, getattr. rewrite Hlf.
  unfold open_logfile_of, open_logfile.
  set (path := abspath (expanduser fn)) in *.
  unfold mbind, lift, logger_log, exists_path. cbn [files dirs].
  rewrite (bool_decide_eq_true_2 (dirname path ∈ dirs w) Hdir), orb_true_r.
  cbn [negb ret]. cbn [files dirs].
  rewrite (bool_decide_eq_true_2 (is_Some (files w !! path))) by (by rewrite Hold).
  cbn [orb]. unfold py_open. cbn [files dirs].
  rewrite (bool_decide_eq_false_2 (path ∈ dirs w) Hnd).
  cbn. eexists. split; [reflexivity|]. split.
  - cbn. rewrite lookup_insert_eq. unfold content.
    rewrite !lookup_insert_eq. reflexivity.
  - apply new_events_app. cbn. by rewrite <- !app_assoc.
Qed.

End MainProps.

Section CounterProps.
Import Py Optparse Baseparser Basecommand Resolution Stores Examples.
Context `{Conversions}.

Lemma counted_evolves st st' pr d occs :
  evolves st st' -> counted st' pr d occs = counted st pr d occs.
Proof.
  intros Hev. unfold counted. induction occs as [|occ occs IH]; [done|]. cbn.
  rewrite IH. f_equal.
  destruct (get_option pr (occ_opt occ)) as [o|]; [|done].
  destruct (options st !! o) as [op|] eqn:Hop.
  - destruct (evolves_lookup _ _ _ _ Hev Hop) as (op' & -> & Hn).
    by destruct (nargs_set_fields _ _ Hn) as (-> & -> & _).
  - by rewrite (evolves_lookup_None _ _ _ Hev Hop).
Qed.

Lemma occurrences_evolves st st' pr d occs :
  evolves st st' -> occurrences st' pr d occs = occurrences st pr d occs.
Proof.
  intros Hev. unfold occurrences. f_equal. f_equal.
  induction occs as [|occ occs IH]; [done|].
  rewrite !filter_cons, (writes_evolves _ _ _ _ _ Hev), IH. reflexivity.
Qed.

(** C3: the counters [verbose] and [quiet] add up across the scopes: the
    merged count is the count of the command plus the global count, each
    scope counts the occurrences of its flags on top of its default, in
    any order of the occurrences; two global [-v] and one [-v] of the
    command give 3, and so do one global and two of the command. *)
Theorem counters_additive :
  (forall initial options merged attr g c,
      attr ∈ ["quiet"; "verbose"] ->
      merge_options initial options = Ok merged ->
      initial !! attr = Some (VInt g) -> options !! attr = Some (VInt c) ->
      merged !! attr = Some (VInt (c + g)))
  /\ (forall p pr environ st d occs st0 resolved n st' values,
        parsers st !! p = Some pr ->
        counted st pr (Some d) occs = true ->
        get_default_values p environ st = (st0, Ok resolved) ->
        resolved !! d = Some (VInt n) ->
        parse_args p environ occs st = (st', Ok values) ->
        values !! d = Some (VInt (n + occurrences st pr (Some d) occs)))
  /\ (forall st pr d occs occs',
        occs ≡ₚ occs' -> occurrences st pr d occs = occurrences st pr d occs')
  /\ attr_of (install_options [] [] [flag "-v"; flag "-v"] [flag "-v"]) "verbose"
     = Some (VInt 3)
  /\ attr_of (install_options [] [] [flag "-v"] [flag "-v"; flag "-v"]) "verbose"
     = Some (VInt 3).
Proof.
  split; [|split; [|split; [|split]]].
  - intros initial options merged attr g c Ha Hm Hg Hc. unfold merge_options in Hm.
    destruct (merge_attrs initial carried_over options) as [m1|] eqn:E1; [|discriminate].
    cbn in Hm.
    destruct (add_attr initial "quiet" m1) as [m2|] eqn:E2; [|discriminate].
    cbn in Hm.
    destruct (merge_attrs_lookup _ _ _ _ carried_over_NoDup E1) as [_ Hout].
    destruct (add_attr_lookup _ _ _ _ E2) as [(a2 & b2 & v2 & Ha2 & Hb2 & Hv2 & Hm2) Ho2].
    destruct (add_attr_lookup _ _ _ _ Hm) as [(a3 & b3 & v3 & Ha3 & Hb3 & Hv3 & Hm3) Ho3].
    apply elem_of_cons in Ha as [->|Ha].
    + rewrite Ho3 by done. rewrite Hm2.
      rewrite Hout in Ha2 by (by apply (bool_decide_unpack _)).
      rewrite Hc in Ha2. rewrite Hg in Hb2. simplify_eq. cbn in Hv2. by simplify_eq.
    + apply list_elem_of_singleton in Ha as ->. rewrite Hm3.
      rewrite Ho2 in Ha3 by done.
      rewrite Hout in Ha3 by (by apply (bool_decide_unpack _)).
      rewrite Hc in Ha3. rewrite Hg in Hb3. simplify_eq. cbn in Hv3. by simplify_eq.
  - intros p pr environ st d occs st0 resolved n st' values Hp Hcount Hdef Hn.
    unfold parse_args, mbind. rewrite Hdef. intros Hloop.
    pose proof (get_default_values_evolves _ _ _ _ _ Hdef) as Hev.
    assert (Hp0 : parsers st0 !! p = Some pr) by (by destruct Hev as (-> & _)).
    rewrite <- (occurrences_evolves _ _ _ _ _ Hev).
    eapply (cli_count p pr st0 d occs Hp0); [|exact Hn|exact Hloop].
    by rewrite (counted_evolves _ _ _ _ _ Hev).
  - intros. by apply occurrences_Permutation.
  - vm_compute. reflexivity.
  - vm_compute. reflexivity.
Qed.

End CounterProps.

(** * The properties on sample inputs *)

Section Samples.
Import Py Optparse Baseparser Basecommand Resolution Mutation Stores Traces Examples.
#[local] Existing Instance sample_conversions.
#[local] Existing Instance sample_host.
#[local] Existing Instance pip_status_codes.

(** Objects of a store that are known to be there. *)
Lemma parser_at_lookup st p :
  bool_decide (p < length (parsers st))%nat = true ->
  parsers st !! p = Some (parser_at st p).
Proof.
  intros Hlt%bool_decide_eq_true. unfold parser_at.
  destruct (parsers st !! p) eqn:E; [done|].
  apply lookup_ge_None in E. lia.
Qed.

Lemma option_at_lookup st o :
  bool_decide (o < length (options st))%nat = true ->
  options st !! o = Some (option_at st o).
Proof.
  intros Hlt%bool_decide_eq_true. unfold option_at.
  destruct (options st !! o) eqn:E; [done|].
  apply lookup_ge_None in E. lia.
Qed.

Lemma option_index_lookup pr opt :
  bool_decide (is_Some (get_option pr opt)) = true ->
  get_option pr opt = Some (option_index pr opt).
Proof.
  intros [o E]%bool_decide_eq_true. unfold option_index. by rewrite E.
Qed.

Lemma values_of_Ok (r : result (gmap string pyval)) :
  succeeds r = true -> r = Ok (values_of r).
Proof. by destruct r. Qed.

Lemma run_values_of {S} (x : S * result (gmap string pyval)) :
  succeeds (snd x) = true -> x = (fst x, Ok (values_of (snd x))).
Proof. destruct x as [s [v|e]]; [done|discriminate]. Qed.

Ltac evaluate := vm_compute; reflexivity.

Lemma config_precedence_witness :
  let config := [("global", [("timeout", "30")]); ("install", [("timeout", "45")])] in
  let environ := [("PIP_TIMEOUT", "60")] in
  let st := install_state config in
  let pr := parser_at st 1 in
  let o := option_index pr "--timeout" in
  let op := option_at st o in
  let parsed := parse_args 1 environ [] st in
  parsers st !! 1%nat = Some pr
  /\ get_option pr "--timeout" = Some o
  /\ dest op = Some "timeout"
  /\ dict_get (merged_config pr environ) "--timeout" = Some "60"
  /\ resolved_default pr environ op "--timeout"
     = Ok (values_of (snd parsed) !! "timeout").
Proof.
  intros config environ st pr o op parsed.
  assert (Hpr : parsers st !! 1%nat = Some pr) by (apply parser_at_lookup; evaluate).
  assert (Hpd : process_default_values pr = true) by evaluate.
  assert (Ho : get_option pr "--timeout" = Some o) by (apply option_index_lookup; evaluate).
  assert (Hop : options st !! o = Some op) by (apply option_at_lookup; evaluate).
  assert (Hd : dest op = Some "timeout") by evaluate.
  assert (Hok : only_key st pr environ "--timeout" (Some "timeout") = true) by evaluate.
  assert (Hw : writers st (Some "timeout") (_get_all_options st pr) = [o]) by evaluate.
  assert (Hparsed : parsed = (fst parsed, Ok (values_of (snd parsed))))
    by (apply run_values_of; evaluate).
  assert (Henv : dict_get (normalize_keys (get_environ_vars environ)) "--timeout" = Some "60")
    by evaluate.
  destruct (config_precedence 1%nat pr environ st "--timeout" o op "timeout"
              Hpr Hpd Ho Hop Hd Hok Hw) as [Hm Hparse].
  split; [exact Hpr|]. split; [exact Ho|]. split; [exact Hd|]. split.
  - rewrite Hm, Henv. reflexivity.
  - exact (proj1 (Hparse [] _ _ Hparsed) eq_refl).
Defined.

Lemma empty_env_value_masks_config :
  let config := [("global", [("log-file", "/var/log/pip.log")])] in
  let environ := [("PIP_LOG_FILE", "")] in
  let st := main_state config in
  let pr := parser_at st 0 in
  parsers st !! 0%nat = Some pr
  /\ dict_get (normalize_keys (get_environ_vars environ)) "--log-file" = Some ""
  /\ dict_get (normalize_keys (get_config_section pr "global")) "--log-file"
     = Some "/var/log/pip.log"
  /\ dest (option_at st (option_index pr "--log-file")) = Some "log_file"
  /\ attr_of (snd (parse_args 0 environ [] st)) "log_file" = Some (VStr default_log_file)
  /\ Claimed.resolve None (Some (VStr "")) None (Some (VStr "/var/log/pip.log"))
       (VStr default_log_file) = VStr ""
  /\ Claimed.resolve None None None (Some (VStr "/var/log/pip.log"))
       (VStr default_log_file) = VStr "/var/log/pip.log"
  /\ VStr default_log_file <> VStr ""
  /\ VStr default_log_file <> VStr "/var/log/pip.log".
Proof.
  intros config environ st pr.
  split; [apply parser_at_lookup; evaluate|].
  repeat (split; [evaluate|]). split; discriminate.
Qed.

Lemma merge_prefers_global_witness :
  let initial := global_scope [] [] [arg "--proxy" "g"] [arg "--proxy" "c"] in
  let options := command_scope [] [] [arg "--proxy" "g"] [arg "--proxy" "c"] in
  initial !! "proxy" = Some (VStr "g")
  /\ options !! "proxy" = Some (VStr "c")
  /\ values_of (merge_options initial options) !! "proxy"
     = Some (py_or (VStr "g") (VStr "c")).
Proof.
  intros initial options.
  assert (Hg : initial !! "proxy" = Some (VStr "g")) by evaluate.
  assert (Hc : options !! "proxy" = Some (VStr "c")) by evaluate.
  assert (Hm : merge_options initial options = Ok (values_of (merge_options initial options)))
    by (apply values_of_Ok; evaluate).
  assert (Hin : "proxy" ∈ carried_over)
    by (apply (bool_decide_unpack _); vm_compute; exact I).
  split; [exact Hg|]. split; [exact Hc|].
  exact (proj1 (merge_prefers_global initial options) _ Hm "proxy" _ _ Hin Hg Hc).
Defined.

Lemma merge_keeps_global_proxy :
  let initial := global_scope [] [] [arg "--proxy" "g"] [arg "--proxy" "c"] in
  let options := command_scope [] [] [arg "--proxy" "g"] [arg "--proxy" "c"] in
  initial !! "proxy" = Some (VStr "g")
  /\ options !! "proxy" = Some (VStr "c")
  /\ attr_of (merge_options initial options) "proxy" = Some (VStr "g")
  /\ Claimed.merged_value (VStr "c") (VStr "g") = VStr "c"
  /\ VStr "g" <> VStr "c".
Proof.
  intros initial options. repeat (split; [evaluate|]). discriminate.
Qed.

Lemma counters_additive_witness :
  let initial := global_scope [] [] [flag "-v"; flag "-v"] [flag "--verbose"] in
  let options := command_scope [] [] [flag "-v"; flag "-v"] [flag "--verbose"] in
  initial !! "verbose" = Some (VInt 2)
  /\ options !! "verbose" = Some (VInt 1)
  /\ values_of (merge_options initial options) !! "verbose" = Some (VInt (1 + 2)).
Proof.
  intros initial options.
  assert (Hg : initial !! "verbose" = Some (VInt 2)) by evaluate.
  assert (Hc : options !! "verbose" = Some (VInt 1)) by evaluate.
  assert (Hm : merge_options initial options = Ok (values_of (merge_options initial options)))
    by (apply values_of_Ok; evaluate).
  assert (Hin : "verbose" ∈ ["quiet"; "verbose"])
    by (apply (bool_decide_unpack _); vm_compute; exact I).
  split; [exact Hg|]. split; [exact Hc|].
  exact (proj1 counters_additive initial options _ "verbose" 2 1 Hin Hm Hg Hc).
Defined.







Import Freeze.

Lemma plain_pin_witness :
  let dist := dist_of "pkg" "1.2.3" in
  exists f,
    from_dist (vcs_with None) dist [] false = ([], Ok f)
    /\ editable f = false
    /\ comments f = []
    /\ to_str f = ("pkg" +:+ "==" +:+ "1.2.3") +:+ nl.
Proof.
  cbv zeta.
  exact (proj1 (plain_pin (vcs_with None) (dist_of "pkg" "1.2.3") [] false
                  ltac:(evaluate)) "1.2.3" ltac:(evaluate) ltac:(evaluate) ltac:(evaluate)).
Defined.


Lemma stored_log_overwrites_witness :
  exists w',
    store_complete_log default_options failed_world = (w', Ok tt)
    /\ files w' !! abspath (expanduser default_log_file)
       = Some ((separator +:+ banner) +:+ join nl (complete_log failed_world))
    /\ new_events failed_world w'
       = [Log FATAL ("Storing complete log in " +:+ str_of (VStr default_log_file));
          Open (abspath (expanduser default_log_file)) ModeW;
          Close (abspath (expanduser default_log_file))].
Proof.
  exact (stored_log_overwrites default_options default_log_file failed_world
           ("earlier failure" +:+ nl)
           ltac:(evaluate) ltac:(evaluate)
           ltac:(apply (bool_decide_unpack _); vm_compute; exact I)
           ltac:(apply (bool_decide_unpack _); vm_compute; exact I)).
Defined.

Lemma svn_backend_missing_witness :
  from_dist (vcs_with None) (dist_of "pkg" "1.2-r45") [] false
  = ([], Raise (UnboundLocalError "svn_location")).
Proof.
  exact (svn_backend_missing (vcs_with None) (dist_of "pkg" "1.2-r45") [] false "1.2-r45"
           ltac:(evaluate) ltac:(evaluate) ltac:(left; vm_compute; by eexists)
           ltac:(evaluate)).
Defined.

End Samples.
